(** * rich-json-viewer: search engine, tree nodes and JSONL loading

    A shallow embedding of [App] and [TreeNode] (the React components of the
    viewer) and the properties of their search, expansion and windowing
    logic.

    Strings are Rocq [string]s of ASCII characters and the built-ins of
    the language that the code calls ([trim], [toLowerCase], [includes],
    [startsWith], [endsWith], [join], [split], [slice], [forEach],
    [String]) are defined on them in module [JS].
    Component state ([useState]) is an explicit record, effects
    ([useEffect]) are state transformers that the event semantics runs when
    their dependencies change. *)

From Stdlib Require Import List String Ascii Bool Arith Lia PeanoNat.
From Stdlib Require Import NArith DecimalString.
Import ListNotations.
Local Open Scope string_scope.
Local Open Scope list_scope.
Local Open Scope nat_scope.

(** ** Built-ins of the language *)

Module JS.

(** White space and line terminators stripped by [trim], among the ASCII
    characters: TAB, LF, VT, FF, CR and SPACE. *)
Definition isWhiteSpace (c : ascii) : bool :=
  let n := nat_of_ascii c in
  ((9 <=? n) && (n <=? 13)) || (n =? 32).

Fixpoint trimStart (s : string) : string :=
  match s with
  | EmptyString => EmptyString
  | String c s' => if isWhiteSpace c then trimStart s' else s
  end.

Fixpoint trimEnd (s : string) : string :=
  match s with
  | EmptyString => EmptyString
  | String c s' =>
      match trimEnd s' with
      | EmptyString => if isWhiteSpace c then EmptyString else String c EmptyString
      | t => String c t
      end
  end.

Definition trim (s : string) : string := trimEnd (trimStart s).

(** Truthiness of a string: [""] is the one falsy string. *)
Definition truthy (s : string) : bool :=
  match s with EmptyString => false | _ => true end.

(** [s.toLowerCase()] for a text of ASCII characters: the letters [A] to
    [Z] are folded, one character at a time. *)
Definition lowerChar (c : ascii) : ascii :=
  let n := nat_of_ascii c in
  if (65 <=? n) && (n <=? 90) then ascii_of_nat (n + 32) else c.

Fixpoint toLowerCase (s : string) : string :=
  match s with
  | EmptyString => EmptyString
  | String c s' => String (lowerChar c) (toLowerCase s')
  end.

(** [s.startsWith(p)] *)
Definition startsWith (s p : string) : bool := String.prefix p s.

(** [s.includes(sub)] *)
Fixpoint includes (s sub : string) : bool :=
  startsWith s sub ||
  match s with
  | EmptyString => false
  | String _ s' => includes s' sub
  end.

(** [l.join(sep)] *)
Definition join (sep : string) (l : list string) : string :=
  String.concat sep l.

(** Decimal numeral of an array index or a count, as a template literal
    prints it. *)
Definition ofNat (n : nat) : string :=
  NilEmpty.string_of_uint (Nat.to_uint n).

(** [l.slice(a, b)] for [a <= b] *)
Definition slice {A} (a b : nat) (l : list A) : list A :=
  firstn (b - a) (skipn a l).

(** [l.forEach((x, index) => ...)] where the callback updates a state. *)
Fixpoint forEachFrom {A S} (f : A -> nat -> S -> S)
    (l : list A) (index : nat) (s : S) : S :=
  match l with
  | [] => s
  | x :: rest => forEachFrom f rest (Datatypes.S index) (f x index s)
  end.

Definition forEach {A S} (f : A -> nat -> S -> S) (l : list A) (s : S) : S :=
  forEachFrom f l 0 s.

(** [s.endsWith(suffix)] *)
Definition endsWith (s suffix : string) : bool :=
  let n := String.length s in
  let k := String.length suffix in
  (k <=? n) && String.eqb (String.substring (n - k) k s) suffix.

(** The line feed character and [content.split('\n')]. *)
Definition LF : ascii := ascii_of_nat 10.
Definition nl : string := String LF EmptyString.

Fixpoint splitLines (s : string) : list string :=
  match s with
  | EmptyString => [EmptyString]
  | String c s' =>
      if Ascii.eqb c LF then EmptyString :: splitLines s'
      else match splitLines s' with
           | [] => [String c EmptyString]
           | l :: ls => String c l :: ls
           end
  end.

End JS.

(** ** The data model: parsed JSON *)

(** A value produced by [JSON.parse].  A number is identified with its
    canonical string form, the one [String(n)] returns: the code only
    prints numbers and tests them for truthiness, and [0] and [-0] both
    print as ["0"].  An object is the list of its entries in the order of
    [Object.entries]. *)
#[local] Set Warnings "-register-all".
Inductive JsonValue : Type :=
| JNull
| JBool (b : bool)
| JNumber (repr : string)
| JString (s : string)
| JArray (items : list JsonValue)
| JObject (entries : list (string * JsonValue)).

(** [typeof v === 'object'] for a value that is not [null]. *)
Definition isContainer (v : JsonValue) : bool :=
  match v with
  | JArray _ | JObject _ => true
  | _ => false
  end.

(** [!v]: [null], [false], [0] and [""] are the falsy JSON values. *)
Definition falsy (v : JsonValue) : bool :=
  match v with
  | JNull => true
  | JBool b => negb b
  | JNumber repr => String.eqb repr "0"
  | JString s => negb (JS.truthy s)
  | JArray _ | JObject _ => false
  end.

(** [String(v)] *)
Fixpoint String_ (v : JsonValue) : string :=
  match v with
  | JNull => "null"
  | JBool true => "true"
  | JBool false => "false"
  | JNumber repr => repr
  | JString s => s
  | JArray items =>
      JS.join ","
        (map (fun x => match x with JNull => "" | _ => String_ x end) items)
  | JObject _ => "[object Object]"
  end.

(** The name of the array element at [index]: the template [`[${index}]`]. *)
Definition indexName (index : nat) : string :=
  ("[" ++ JS.ofNat index ++ "]")%string.

(** ** The [App] component: [searchInData] and [processFile] *)

Module App.

Inductive MatchType := key_ | value_.

(** A search result: [{type, path, key, value, pathString}]; value matches
    have no [key]. *)
Record SearchResult := mkResult {
  type : MatchType;
  path : list string;
  key : option string;
  value : JsonValue;
  pathString : string
}.

Definition MAX_RESULTS : nat := 1000.
Definition MAX_DEPTH : nat := 50.
(** The literal [1000] of [slice(0, 1000)]: siblings searched per container. *)
Definition MAX_SIBLINGS : nat := 1000.

Section Search.
Variable lowerQuery : string.

(** The result pushed for a matching key. *)
Definition keyResult (newPath : list string) (k : string) (v : JsonValue)
  : SearchResult :=
  mkResult key_ newPath (Some k) v (JS.join "." newPath).

(** The result pushed for a matching primitive value. *)
Definition valueResult (currentPath : list string) (obj : JsonValue)
  : SearchResult :=
  mkResult value_ currentPath None obj (JS.join "." currentPath).

(** The inner function [search(obj, currentPath, depth)]; the array
    [results] it pushes to is threaded through.  The two loops walk the
    entries whose index is below the slice limit, which is what
    [slice(0, 1000).forEach] visits (see [search_unfold] and
    [eachBelowLimit_forEach]). *)
Fixpoint search (obj : JsonValue) (currentPath : list string) (depth : nat)
    (results : list SearchResult) {struct obj} : list SearchResult :=
  if (MAX_RESULTS <=? List.length results) || (MAX_DEPTH <? depth) then results
  else
    match obj with
    | JNull => results
    | JArray items =>
        (fix each (l : list JsonValue) (index : nat)
             (results : list SearchResult) {struct l} :=
           match l with
           | [] => results
           | item :: rest =>
               if index <? MAX_SIBLINGS then
                 each rest (S index)
                   (if MAX_RESULTS <=? List.length results then results
                    else search item (currentPath ++ [indexName index])
                           (S depth) results)
               else results
           end) items 0 results
    | JObject entries =>
        (fix each (l : list (string * JsonValue)) (index : nat)
             (results : list SearchResult) {struct l} :=
           match l with
           | [] => results
           | (k, v) :: rest =>
               if index <? MAX_SIBLINGS then
                 each rest (S index)
                   (if MAX_RESULTS <=? List.length results then results
                    else
                      let newPath := currentPath ++ [k] in
                      let results :=
                        if JS.includes (JS.toLowerCase k) lowerQuery
                        then results ++ [keyResult newPath k v]
                        else results in
                      search v newPath (S depth) results)
               else results
           end) entries 0 results
    | _ =>
        let strValue := JS.toLowerCase (String_ obj) in
        if JS.includes strValue lowerQuery
        then results ++ [valueResult currentPath obj]
        else results
    end.

(** The callbacks of the two [forEach] calls of [search]. *)
Definition itemCallback (currentPath : list string) (depth : nat)
    (item : JsonValue) (index : nat) (results : list SearchResult)
  : list SearchResult :=
  if MAX_RESULTS <=? List.length results then results
  else search item (currentPath ++ [indexName index]) (S depth) results.

Definition entryCallback (currentPath : list string) (depth : nat)
    (entry : string * JsonValue) (index : nat)
    (results : list SearchResult) : list SearchResult :=
  let '(k, v) := entry in
  if MAX_RESULTS <=? List.length results then results
  else
    let newPath := currentPath ++ [k] in
    let results :=
      if JS.includes (JS.toLowerCase k) lowerQuery
      then results ++ [keyResult newPath k v]
      else results in
    search v newPath (S depth) results.

(** The two loops of [search], by name: [callback] on the entries
    whose index is below the slice limit. *)
Fixpoint eachBelowLimit {A} (callback : A -> nat -> list SearchResult
                                        -> list SearchResult)
    (l : list A) (index : nat) (results : list SearchResult)
  : list SearchResult :=
  match l with
  | [] => results
  | x :: rest =>
      if index <? MAX_SIBLINGS
      then eachBelowLimit callback rest (S index) (callback x index results)
      else results
  end.

End Search.

(** [searchInData(data, query, path = [])] *)
Definition searchInData (data : JsonValue) (query : string)
    (path : list string) : list SearchResult :=
  if negb (JS.truthy (JS.trim query)) || falsy data then []
  else
    let lowerQuery := JS.toLowerCase query in
    JS.slice 0 MAX_RESULTS (search lowerQuery data path 0 []).

(** *** [processFile] *)

(** What [processFile] leaves in the [error] and [jsonData] state variables;
    [jsonData] is [null] when nothing is loaded. *)
Record Loaded := mkLoaded {
  error : string;
  jsonData : JsonValue
}.

Section ProcessFile.
(** [JSON.parse]: the parsed value, or the message of the [SyntaxError]
    it throws. *)
Variable JSON_parse : string -> JsonValue + string.

(** The non-blank lines of a JSONL file. *)
Definition jsonlLines (content : string) : list string :=
  filter (fun line => negb (String.eqb (JS.trim line) ""))
         (JS.splitLines content).

(** The body of [lines.forEach((line, index) => ...)], on the pair
    [(parsedLines, errors)]. *)
Definition parseLine (line : string) (index : nat)
    (acc : list JsonValue * list string) : list JsonValue * list string :=
  let '(parsedLines, errors) := acc in
  match JSON_parse (JS.trim line) with
  | inl parsed => (parsedLines ++ [parsed], errors)
  | inr message =>
      (parsedLines,
       errors ++ [("Line " ++ JS.ofNat (index + 1) ++ ": " ++ message)%string])
  end.

Definition parseLines (lines : list string)
  : list JsonValue * list string :=
  JS.forEach parseLine lines ([], []).

(** The JSONL branch of [reader.onload]. *)
Definition processJsonl (content : string) : Loaded :=
  let lines := jsonlLines content in
  let '(parsedLines, errors) := parseLines lines in
  let more : string :=
    if 5 <? List.length errors
    then (JS.nl ++ "... and " ++ JS.ofNat (List.length errors - 5)
            ++ " more errors")%string
    else "" in
  if (0 <? List.length errors) && (List.length parsedLines =? 0) then
    mkLoaded
      ("Invalid JSONL file. No valid JSON objects found:" ++ JS.nl
         ++ JS.join JS.nl (JS.slice 0 5 errors) ++ more)%string
      JNull
  else if 0 <? List.length errors then
    mkLoaded
      ("JSONL file contains " ++ JS.ofNat (List.length errors)
         ++ " invalid lines (skipped). First few errors:" ++ JS.nl
         ++ JS.join JS.nl (JS.slice 0 3 errors))%string
      (JArray parsedLines)
  else mkLoaded "" (JArray parsedLines).

(** [reader.onload] for a file called [fileName] with text [content]. *)
Definition processFile (fileName content : string) : Loaded :=
  let isJsonl := JS.endsWith (JS.toLowerCase fileName) ".jsonl" in
  if isJsonl then processJsonl content
  else
    match JSON_parse content with
    | inl parsed => mkLoaded "" parsed
    | inr message => mkLoaded ("Invalid JSON file: " ++ message)%string JNull
    end.

End ProcessFile.

(** *** The search effect and the large-file flag *)

(** The body of the debounced effect on [[jsonData, searchQuery]]: the
    value it stores in [searchResults] once the timer has fired. *)
Definition searchEffect (jsonData : JsonValue) (searchQuery : string)
    : list SearchResult :=
  if negb (falsy jsonData) && JS.truthy (JS.trim searchQuery)
  then searchInData jsonData searchQuery []
  else [].

(** [fileSize > 5 * 1024 * 1024] *)
Definition isLargeFile (fileSize : N) : bool :=
  (5 * 1024 * 1024 <? fileSize)%N.

End App.

(** ** The [TreeNode] component *)

Module TreeNode.

(** The props of a node.  [searchQuery] and [searchResults] are the ones
    of [App], handed down unchanged to every node. *)
Record Props := mkProps {
  data : JsonValue;
  name : string;
  level : nat;
  isLargeFile : bool;
  searchQuery : string;
  searchResults : list App.SearchResult;
  path : list string
}.

(** The state of a node that the tree logic reads: [isExpanded] and
    [visibleCount] ([isHovered] and [copySuccess] only drive the copy
    button). *)
Record State := mkState {
  isExpanded : bool;
  visibleCount : nat
}.

Definition shouldAutoExpand (p : Props) : bool :=
  if isLargeFile p then level p <? 1 else level p <? 2.

Definition isObject (p : Props) : bool :=
  match data p with JObject _ => true | _ => false end.

Definition isArray (p : Props) : bool :=
  match data p with JArray _ => true | _ => false end.

Definition isPrimitive (p : Props) : bool :=
  negb (isObject p) && negb (isArray p).

(** [data.length], read only where [isArray] holds. *)
Definition dataLength (p : Props) : nat :=
  match data p with JArray items => List.length items | _ => 0 end.

(** The number of children of the node: [data.length] or the number of
    keys. *)
Definition childCount (p : Props) : nat :=
  match data p with
  | JArray items => List.length items
  | JObject entries => List.length entries
  | _ => 0
  end.

Definition currentPath (p : Props) : list string := path p ++ [name p].

Definition pathString (p : Props) : string := JS.join "." (currentPath p).

Definition isSearchMatch (p : Props) : bool :=
  existsb
    (fun result =>
       String.eqb (App.pathString result) (pathString p)
       || JS.startsWith (App.pathString result) (pathString p ++ ".")%string)
    (searchResults p).

Definition isKeyMatch (p : Props) : bool :=
  JS.truthy (searchQuery p)
  && JS.includes (JS.toLowerCase (name p)) (JS.toLowerCase (searchQuery p)).

Definition isValueMatch (p : Props) : bool :=
  isPrimitive p && JS.truthy (searchQuery p)
  && JS.includes (JS.toLowerCase (String_ (data p)))
       (JS.toLowerCase (searchQuery p)).

(** The arguments of the two [useState] calls. *)
Definition initialState (p : Props) : State :=
  mkState (shouldAutoExpand p)
    (if isLargeFile p && isArray p then 100
     else if isArray p then dataLength p else 0).

Definition toggleExpanded (st : State) : State :=
  mkState (negb (isExpanded st)) (visibleCount st).

(** The effect on [[searchQuery, isSearchMatch]]. *)
Definition autoExpandEffect (p : Props) (st : State) : State :=
  if JS.truthy (searchQuery p) && isSearchMatch p
  then mkState true (visibleCount st)
  else st.

(** The effect on [[data, isLargeFile, isArray, isExpanded]]. *)
Definition resetVisibleEffect (p : Props) (st : State) : State :=
  if isLargeFile p && isArray p then mkState (isExpanded st) 100 else st.

(** The updater of the load-more button:
    [setVisibleCount(prev => Math.min(prev + 100, data.length))]. *)
Definition loadMore (p : Props) (st : State) : State :=
  mkState (isExpanded st) (Nat.min (visibleCount st + 100) (dataLength p)).

(** The condition under which the load-more button is rendered. *)
Definition canLoadMore (p : Props) (st : State) : bool :=
  isExpanded st && isArray p && isLargeFile p
  && (visibleCount st <? dataLength p).

(** The label next to the button: [`${data.length - visibleCount} remaining`]. *)
Definition remainingLabel (p : Props) (st : State) : string :=
  (JS.ofNat (dataLength p - visibleCount st) ++ " remaining")%string.

(** The condition under which "All n items loaded" is rendered. *)
Definition allLoaded (p : Props) (st : State) : bool :=
  isExpanded st && isArray p && isLargeFile p
  && (100 <? dataLength p) && (dataLength p <=? visibleCount st).

(** An element of [childEntries]: [{key, name, data}], where [key] is the
    index of an array element or the key of an object entry. *)
Record Entry := mkEntry {
  entryKey : nat + string;
  entryName : string;
  entryData : JsonValue
}.

Definition childEntries (p : Props) (st : State) : list Entry :=
  if negb (isExpanded st) || isPrimitive p then []
  else
    match data p with
    | JArray items =>
        let maxItems := if isLargeFile p then visibleCount st
                        else List.length items in
        JS.forEach
          (fun item index acc => acc ++ [mkEntry (inl index) (indexName index) item])
          (JS.slice 0 maxItems items) []
    | JObject entries =>
        map (fun '(k, v) => mkEntry (inr k) k v) entries
    | _ => []
    end.

(** The props of the child node rendered for the entry called [childName]
    with value [childData]. *)
Definition childProps (p : Props) (childName : string)
    (childData : JsonValue) : Props :=
  mkProps childData childName (level p + 1) (isLargeFile p)
    (searchQuery p) (searchResults p) (currentPath p).

(** The children that the node renders. *)
Definition renderedChildren (p : Props) (st : State) : list Props :=
  map (fun e => childProps p (entryName e) (entryData e)) (childEntries p st).

(** *** The life of a mounted node *)

(** The state after the first render and its effects: both effects run,
    in the order they are declared. *)
Definition mount (p : Props) : State :=
  resetVisibleEffect p (autoExpandEffect p (initialState p)).

(** What can happen to a mounted node: a click on its row or chevron, a
    click on its load-more button, and a render with a new [searchQuery]
    and [searchResults] from [App]. *)
Inductive Event :=
| Click
| LoadMoreClick
| Rerender (searchQuery : string) (searchResults : list App.SearchResult).

Definition withSearch (p : Props) (q : string) (rs : list App.SearchResult)
    : Props :=
  mkProps (data p) (name p) (level p) (isLargeFile p) q rs (path p).

(** The window effect runs again when [isExpanded] has changed. *)
Definition afterExpansion (p : Props) (old new : State) : State :=
  if Bool.eqb (isExpanded old) (isExpanded new) then new
  else resetVisibleEffect p new.

(** One event.  [None]: the node offers no such interaction in this state
    (a primitive has no click handler, the button is not rendered). *)
Definition fire (p : Props) (st : State) (ev : Event)
    : option (Props * State) :=
  match ev with
  | Click =>
      if isPrimitive p then None
      else Some (p, afterExpansion p st (toggleExpanded st))
  | LoadMoreClick =>
      if canLoadMore p st then Some (p, loadMore p st) else None
  | Rerender q rs =>
      let p' := withSearch p q rs in
      let depsChanged :=
        negb (String.eqb q (searchQuery p))
        || negb (Bool.eqb (isSearchMatch p') (isSearchMatch p)) in
      let st' := if depsChanged then autoExpandEffect p' st else st in
      Some (p', afterExpansion p' st st')
  end.

Fixpoint run (p : Props) (st : State) (evs : list Event)
    : option (Props * State) :=
  match evs with
  | [] => Some (p, st)
  | ev :: rest =>
      match fire p st ev with
      | Some (p', st') => run p' st' rest
      | None => None
      end
  end.

End TreeNode.

(** ** The tree that [App] renders *)

(** The props of the root [TreeNode]. *)
Definition rootProps (jsonData : JsonValue) (fileSize : N)
    (isJsonlFile : bool) (searchQuery : string)
    (searchResults : list App.SearchResult) : TreeNode.Props :=
  TreeNode.mkProps jsonData
    (if isJsonlFile then "jsonl_records" else "root") 0
    (App.isLargeFile fileSize) searchQuery searchResults [].

(** All the children of a value, under the names that the tree and the
    search give them. *)
Definition children (v : JsonValue) : list (string * JsonValue) :=
  match v with
  | JArray items =>
      JS.forEach (fun item index acc => acc ++ [(indexName index, item)])
        items []
  | JObject entries => entries
  | _ => []
  end.

(** The props of the node rendered for the value at the path [segs] below
    the node with props [p], once its ancestors are expanded and it lies
    inside their windows. *)
Fixpoint nodeAt (p : TreeNode.Props) (segs : list string)
    : option TreeNode.Props :=
  match segs with
  | [] => Some p
  | seg :: rest =>
      match find (fun e => String.eqb (fst e) seg) (children (TreeNode.data p)) with
      | Some (n, d) =>
          nodeAt (TreeNode.childProps p n d) rest
      | None => None
      end
  end.

(** ** [TreeNode]: the text of a row *)

(** The carriage return character and the double quote. *)
Definition CR : ascii := ascii_of_nat 13.
Definition quote : ascii := ascii_of_nat 34.

(** [text.split(regex)] for the regular expression that [highlightText]
    builds: the query with every special character escaped, in a capture
    group, with the flags [g] and [i], for a text and a query made of
    ASCII characters.  The pieces of [text] between the
    successive occurrences of the query, the case of letters ignored,
    from left to right and without overlap, alternate with the occurrences
    themselves (the captures); [lowerQuery] is the query in lower case and
    is not empty.  [piece] is the piece or capture under construction and
    [inMatch] the number of characters that the current occurrence still
    takes. *)
Fixpoint splitFrom (lowerQuery : string) (text piece : string)
    (inMatch : nat) : list string :=
  match text with
  | EmptyString => [piece]
  | String c rest =>
      match inMatch with
      | S (S k) =>
          splitFrom lowerQuery rest (piece ++ String c "")%string (S k)
      | 1 => (piece ++ String c "")%string :: splitFrom lowerQuery rest "" 0
      | 0 =>
          if JS.startsWith (JS.toLowerCase text) lowerQuery then
            piece ::
            match String.length lowerQuery with
            | S (S k) => splitFrom lowerQuery rest (String c "") (S k)
            | _ => String c "" :: splitFrom lowerQuery rest "" 0
            end
          else splitFrom lowerQuery rest (piece ++ String c "")%string 0
      end
  end.

Definition splitCaptured (lowerQuery text : string) : list string :=
  splitFrom lowerQuery text "" 0.

(** [highlightText(text, shouldHighlight)], for a [text] that is a string:
    the parts that are rendered one after the other, each with the mark of
    a highlighted span or without; the text returned as it is is one part
    without the mark. *)
Definition highlightText (p : TreeNode.Props) (text : string)
    (shouldHighlight : bool) : list (bool * string) :=
  if negb shouldHighlight || negb (JS.truthy (TreeNode.searchQuery p))
  then [(false, text)]
  else
    let query := JS.toLowerCase (TreeNode.searchQuery p) in
    let lowerText := JS.toLowerCase text in
    if negb (JS.includes lowerText query) then [(false, text)]
    else
      let parts := splitCaptured query text in
      map (fun part => (String.eqb (JS.toLowerCase part) query, part)) parts.

(** [s.replace(/\\x/g, r)]: every backslash followed by [x] becomes
    [r], from left to right. *)
Fixpoint replaceEscape (x r : ascii) (s : string) : string :=
  match s with
  | EmptyString => EmptyString
  | String c s1 =>
      match s1 with
      | String d s2 =>
          if Ascii.eqb c "\" && Ascii.eqb d x
          then String r (replaceEscape x r s2)
          else String c (replaceEscape x r s1)
      | EmptyString => String c EmptyString
      end
  end.

(** The [processedValue] of [renderValue]. *)
Definition processedValue (value : string) : string :=
  replaceEscape "\" "\"
    (replaceEscape quote quote
       (replaceEscape "r" CR
          (replaceEscape "t" (ascii_of_nat 9)
             (replaceEscape "n" JS.LF value)))).

(** The text that [renderValue] shows for a primitive; a container is
    returned as it is and gives no text of its own. *)
Definition renderValue (value : JsonValue) : option string :=
  match value with
  | JNull => Some "null"
  | JString s =>
      Some (String quote (processedValue s ++ String quote ""))%string
  | JNumber repr => Some repr
  | JBool true => Some "true"
  | JBool false => Some "false"
  | JArray _ | JObject _ => None
  end.

(** [s] holds no backslash. *)
Fixpoint noBackslash (s : string) : bool :=
  match s with
  | EmptyString => true
  | String c s' => negb (Ascii.eqb c "\") && noBackslash s'
  end.

(** The notice "(limited to first 1000)" under the search box is
    rendered: [jsonData && !isLoading], the condition of the search box,
    then [searchResults.length > 0] and [searchResults.length === 1000]. *)
Definition limitedNotice (jsonData : JsonValue) (isLoading : bool)
    (searchResults : list App.SearchResult) : bool :=
  negb (falsy jsonData) && negb isLoading
  && (0 <? List.length searchResults)
  && (List.length searchResults =? 1000).

(** ** The nodes of the first render *)

Section NodesBelow.
Context {A : Type}.
Variable nodesOf : A -> nat -> list TreeNode.Props.
Variable limit : nat.

(** The nodes of the entries whose index is below [limit], one entry
    after the other: what [slice(0, limit).map] renders. *)
Fixpoint nodesBelow (l : list A) (index : nat) : list TreeNode.Props :=
  match l with
  | [] => []
  | x :: rest =>
      if index <? limit
      then nodesOf x index ++ nodesBelow rest (S index)
      else []
  end.
End NodesBelow.

(** The nodes that are mounted when the node with these props is: the
    node itself and, if it starts expanded, the nodes of the children that
    it renders, each of them in the state that [mount] gives it. *)
Fixpoint mountedNodes (data : JsonValue) (name : string) (level : nat)
    (isLargeFile : bool) (searchQuery : string)
    (searchResults : list App.SearchResult) (path : list string)
    {struct data} : list TreeNode.Props :=
  let p := TreeNode.mkProps data name level isLargeFile searchQuery
             searchResults path in
  let st := TreeNode.mount p in
  p ::
  if TreeNode.isExpanded st then
    match data with
    | JArray items =>
        nodesBelow
          (fun item index =>
             mountedNodes item (indexName index) (level + 1) isLargeFile
               searchQuery searchResults (TreeNode.currentPath p))
          (if isLargeFile then TreeNode.visibleCount st
           else List.length items)
          items 0
    | JObject entries =>
        flat_map
          (fun entry =>
             mountedNodes (snd entry) (fst entry) (level + 1) isLargeFile
               searchQuery searchResults (TreeNode.currentPath p))
          entries
    | _ => []
    end
  else [].

(** The nodes mounted with the node of props [p]. *)
Definition mountedBelow (p : TreeNode.Props) : list TreeNode.Props :=
  mountedNodes (TreeNode.data p) (TreeNode.name p) (TreeNode.level p)
    (TreeNode.isLargeFile p) (TreeNode.searchQuery p)
    (TreeNode.searchResults p) (TreeNode.path p).

(** ** What [App] shows once a file is read *)

(** The tree and the search box are rendered: [jsonData && !isLoading]. *)
Definition showsTree (jsonData : JsonValue) (isLoading : bool) : bool :=
  negb (falsy jsonData) && negb isLoading.

(** The error box is rendered: [error]. *)
Definition showsError (error : string) : bool := JS.truthy error.

(** The box "No JSON/JSONL file loaded" is rendered:
    [!jsonData && !error && !isLoading]. *)
Definition showsNoFile (jsonData : JsonValue) (error : string)
    (isLoading : bool) : bool :=
  falsy jsonData && negb (JS.truthy error) && negb isLoading.

(** ** Notions that the properties are stated with *)

(** [s] consists of white space only (and may be empty). *)
Fixpoint whitespaceOnly (s : string) : bool :=
  match s with
  | EmptyString => true
  | String c s' => JS.isWhiteSpace c && whitespaceOnly s'
  end.

(** [sub] occurs in [s]. *)
Definition occursIn (sub s : string) : Prop :=
  exists before after : string, s = (before ++ sub ++ after)%string.

(** [query] occurs in [s] when the case of letters is ignored. *)
Definition containsQuery (s query : string) : Prop :=
  occursIn (JS.toLowerCase query) (JS.toLowerCase s).

(** [resolves doc segs v]: following the segments of the path [segs] from
    [doc], each one the name of a child of the value reached so far, leads
    to [v]. *)
Inductive resolves : JsonValue -> list string -> JsonValue -> Prop :=
| resolves_here v : resolves v [] v
| resolves_child v seg child rest w :
    In (seg, child) (children v) ->
    resolves child rest w ->
    resolves v (seg :: rest) w.

(** What a search result says about the document it was found in. *)
Definition soundMatch (doc : JsonValue) (query : string)
    (m : App.SearchResult) : Prop :=
  App.pathString m = JS.join "." (App.path m) /\
  match App.type m with
  | App.value_ =>
      App.key m = None /\
      resolves doc (App.path m) (App.value m) /\
      isContainer (App.value m) = false /\
      App.value m <> JNull /\
      containsQuery (String_ (App.value m)) query
  | App.key_ =>
      exists parent entries k,
        App.path m = parent ++ [k] /\
        App.key m = Some k /\
        resolves doc parent (JObject entries) /\
        In (k, App.value m) entries /\
        containsQuery k query
  end.

(** What a result found below [obj], itself at [currentPath], says about
    [obj]; the invariant of [search]. *)
Definition soundBelow (lowerQuery : string) (obj : JsonValue)
    (currentPath : list string) (m : App.SearchResult) : Prop :=
  exists rel,
    App.path m = currentPath ++ rel /\
    App.pathString m = JS.join "." (App.path m) /\
    match App.type m with
    | App.value_ =>
        App.key m = None /\
        resolves obj rel (App.value m) /\
        isContainer (App.value m) = false /\
        App.value m <> JNull /\
        JS.includes (JS.toLowerCase (String_ (App.value m))) lowerQuery = true
    | App.key_ =>
        exists parent entries k,
          rel = parent ++ [k] /\
          App.key m = Some k /\
          resolves obj parent (JObject entries) /\
          In (k, App.value m) entries /\
          JS.includes (JS.toLowerCase k) lowerQuery = true
    end.

(** *** The cost and the reach of the traversal *)

(** [search] stops at once when the results are full or the depth is
    beyond the limit. *)
Definition searchGuard (depth : nat) (results : list App.SearchResult) : bool :=
  (App.MAX_RESULTS <=? List.length results) || (App.MAX_DEPTH <? depth).

Section SearchCalls.
Variable lowerQuery : string.

(** The calls made by a loop of [search]: [cost x index results] for
    each entry below the slice limit, the results threaded as in the
    loop. *)
Section Loop.
Context {A : Type}.
Variable cost : A -> nat -> list App.SearchResult -> nat.
Variable callback :
  A -> nat -> list App.SearchResult -> list App.SearchResult.

Fixpoint callsBelowLimit (l : list A) (index : nat)
    (results : list App.SearchResult) : nat :=
  match l with
  | [] => 0
  | x :: rest =>
      if index <? App.MAX_SIBLINGS
      then cost x index results
           + callsBelowLimit rest (S index) (callback x index results)
      else 0
  end.
End Loop.

(** The number of invocations of [search] that
    [search(obj, currentPath, depth)] amounts to, itself included, when
    [results] holds the matches found so far. *)
Fixpoint searchCalls (obj : JsonValue) (currentPath : list string)
    (depth : nat) (results : list App.SearchResult) {struct obj} : nat :=
  if searchGuard depth results then 1
  else
    match obj with
    | JArray items =>
        S (callsBelowLimit
             (fun item index results =>
                if App.MAX_RESULTS <=? List.length results then 0
                else searchCalls item (currentPath ++ [indexName index])
                       (S depth) results)
             (App.itemCallback lowerQuery currentPath depth)
             items 0 results)
    | JObject entries =>
        S (callsBelowLimit
             (fun entry index results =>
                if App.MAX_RESULTS <=? List.length results then 0
                else
                  let newPath := currentPath ++ [fst entry] in
                  searchCalls (snd entry) newPath (S depth)
                    (if JS.includes (JS.toLowerCase (fst entry)) lowerQuery
                     then results ++ [App.keyResult newPath (fst entry)
                                        (snd entry)]
                     else results))
             (App.entryCallback lowerQuery currentPath depth)
             entries 0 results)
    | _ => 1
    end.
End SearchCalls.

(** A bound on the calls of a traversal that may still descend [levels]
    levels: one call, and at most [MAX_SIBLINGS] traversals one level
    down. *)
Fixpoint callBound (levels : nat) : nat :=
  match levels with
  | 0 => 1
  | S n => 1 + App.MAX_SIBLINGS * callBound n
  end.

(** What [search] can reach of a value that has [levels] levels left above
    the depth limit: the first [MAX_SIBLINGS] entries of each container,
    with nothing below the last level. *)
Fixpoint clip (levels : nat) (v : JsonValue) {struct levels} : JsonValue :=
  let below : JsonValue -> JsonValue :=
    match levels with
    | 0 => fun _ => JNull
    | S n => clip n
    end in
  match v with
  | JArray items => JArray (map below (firstn App.MAX_SIBLINGS items))
  | JObject entries =>
      JObject (map (fun e => (fst e, below (snd e)))
                 (firstn App.MAX_SIBLINGS entries))
  | _ => v
  end.

(** Where a result was found and what matched there: all of a value
    match, and all of a key match but the value under the key. *)
Definition location (m : App.SearchResult)
    : App.MatchType * list string * option string * string
      * option JsonValue :=
  (App.type m, App.path m, App.key m, App.pathString m,
   match App.type m with
   | App.value_ => Some (App.value m)
   | App.key_ => None
   end).

(** *** Invariants of [search] *)

(** The statement proved of [search] by induction on the value. *)
Definition searchSound (lowerQuery : string) (obj : JsonValue) : Prop :=
  forall currentPath depth results,
  exists new,
    App.search lowerQuery obj currentPath depth results = results ++ new
    /\ Forall (soundBelow lowerQuery obj currentPath) new.

(** The statement proved of [search] and [clip] by induction on the
    value. *)
Definition searchClipped (lowerQuery : string) (obj : JsonValue) : Prop :=
  forall currentPath depth rs rs',
    map location rs = map location rs' ->
    map location (App.search lowerQuery obj currentPath depth rs)
    = map location
        (App.search lowerQuery (clip (App.MAX_DEPTH - depth) obj)
           currentPath depth rs').

(** The value that [clip] leaves of a child, [depth] being the depth of
    its parent. *)
Definition clipBelow (depth : nat) : JsonValue -> JsonValue :=
  match App.MAX_DEPTH - depth with
  | 0 => fun _ => JNull
  | S n => clip n
  end.

(** The depth at which [m] was found is within the limit, for a traversal
    that is at [depth] when its path has [n] segments: a value match lies
    at most [MAX_DEPTH] levels down, a key match is a key of such an
    object. *)
Definition withinDepth (n depth : nat) (m : App.SearchResult) : Prop :=
  List.length (App.path m) + depth
  <= n + App.MAX_DEPTH
     + match App.type m with App.key_ => 1 | App.value_ => 0 end.

(** The statement proved of [search] by induction on the value. *)
Definition searchWithin (lowerQuery : string) (obj : JsonValue) : Prop :=
  forall currentPath depth results,
  exists new,
    App.search lowerQuery obj currentPath depth results = results ++ new
    /\ (List.length results <= App.MAX_RESULTS ->
        List.length (results ++ new) <= App.MAX_RESULTS)
    /\ Forall (withinDepth (List.length currentPath) depth) new.

(** *** The lines of a JSONL file *)

Section JsonlLines.
Variable JSON_parse : string -> JsonValue + string.

(** [JSON.parse] accepts the line. *)
Definition lineParses (line : string) : bool :=
  match JSON_parse (JS.trim line) with inl _ => true | inr _ => false end.

(** The values of the lines that parse, in the order of the lines. *)
Fixpoint parsedValues (lines : list string) : list JsonValue :=
  match lines with
  | [] => []
  | line :: rest =>
      match JSON_parse (JS.trim line) with
      | inl parsed => parsed :: parsedValues rest
      | inr _ => parsedValues rest
      end
  end.

(** One message for each line that fails to parse, with its number
    among the non-blank lines; [index] numbers the first line. *)
Fixpoint lineErrors (index : nat) (lines : list string) : list string :=
  match lines with
  | [] => []
  | line :: rest =>
      match JSON_parse (JS.trim line) with
      | inl _ => lineErrors (S index) rest
      | inr message =>
          ("Line " ++ JS.ofNat (index + 1) ++ ": " ++ message)%string
            :: lineErrors (S index) rest
      end
  end.

(** The number of lines that fail to parse. *)
Definition failedCount (lines : list string) : nat :=
  List.length (filter (fun line => negb (lineParses line)) lines).

End JsonlLines.

(** A stand-in for [JSON.parse] in examples: it accepts the literals
    [null], [true] and [false] and rejects every other text. *)
Definition literalParse (text : string) : JsonValue + string :=
  if String.eqb text "null" then inl JNull
  else if String.eqb text "true" then inl (JBool true)
  else if String.eqb text "false" then inl (JBool false)
  else inr "Unexpected token".

(** A JSONL text of three lines whose second line is not JSON. *)
Definition threeLines : string :=
  ("true" ++ JS.nl ++ "{oops" ++ JS.nl ++ "null")%string.

(** *** Documents of the scenarios *)

(** [{"a": {"b": 1, "c": [1,2,3]}}] *)
Definition smallDoc : JsonValue :=
  JObject [("a", JObject [("b", JNumber "1");
                          ("c", JArray [JNumber "1"; JNumber "2"; JNumber "3"])])].

(** [{"a": {"b": {"c": 1}}}] *)
Definition nestedDoc : JsonValue :=
  JObject [("a", JObject [("b", JObject [("c", JNumber "1")])])].

(** [{"root": {"root": {"root": 1}}}] *)
Definition rootsDoc : JsonValue :=
  JObject [("root", JObject [("root", JObject [("root", JNumber "1")])])].

(** A three-element array in a large file. *)
Definition shortArrayNode : TreeNode.Props :=
  rootProps (JArray [JNumber "1"; JNumber "2"; JNumber "3"]) 6000000
    false "" [].

(** A 250-element array in a large file. *)
Definition mediumArrayNode : TreeNode.Props :=
  rootProps (JArray (repeat JNull 250)) 6000000 false "" [].

(** The node of the innermost object of [rootsDoc], before a search. *)
Definition innerRootNode : TreeNode.Props :=
  TreeNode.mkProps (JObject [("root", JNumber "1")]) "root" 2 false "" []
    ["root"; "root"].

(** [{"x": 42, "y": "value42"}] *)
Definition answerDoc : JsonValue :=
  JObject [("x", JNumber "42"); ("y", JString "value42")].

(** *** The matches of a document in traversal order *)

Section AllMatches.
Variable lowerQuery : string.

Section Concat.
Context {A : Type}.
Variable matchesOf : A -> nat -> list App.SearchResult.

(** The matches of the entries below the slice limit, one entry after the
    other. *)
Fixpoint concatBelowLimit (l : list A) (index : nat)
    : list App.SearchResult :=
  match l with
  | [] => []
  | x :: rest =>
      if index <? App.MAX_SIBLINGS
      then matchesOf x index ++ concatBelowLimit rest (S index)
      else []
  end.
End Concat.

(** Every match of the traversal, in pre-order, were the number of results
    not limited: a primitive against the query, the entries of an object
    key first and value next, the items of an array by index; nothing
    below depth [MAX_DEPTH] and nothing past the first [MAX_SIBLINGS]
    entries of a container. *)
Fixpoint allMatches (obj : JsonValue) (currentPath : list string)
    (depth : nat) {struct obj} : list App.SearchResult :=
  if App.MAX_DEPTH <? depth then []
  else
    match obj with
    | JNull => []
    | JArray items =>
        concatBelowLimit
          (fun item index =>
             allMatches item (currentPath ++ [indexName index]) (S depth))
          items 0
    | JObject entries =>
        concatBelowLimit
          (fun entry index =>
             let newPath := currentPath ++ [fst entry] in
             (if JS.includes (JS.toLowerCase (fst entry)) lowerQuery
              then [App.keyResult newPath (fst entry) (snd entry)]
              else [])
             ++ allMatches (snd entry) newPath (S depth))
          entries 0
    | _ =>
        if JS.includes (JS.toLowerCase (String_ obj)) lowerQuery
        then [App.valueResult currentPath obj]
        else []
    end.

End AllMatches.

(** [reaches doc segs v]: the path [segs] leads from [doc] to [v] through
    children that are among the first [MAX_SIBLINGS] of their parent. *)
Inductive reaches : JsonValue -> list string -> JsonValue -> Prop :=
| reaches_here v : reaches v [] v
| reaches_child v i seg child rest w :
    i < App.MAX_SIBLINGS ->
    nth_error (children v) i = Some (seg, child) ->
    reaches child rest w ->
    reaches v (seg :: rest) w.

(** The name of the root node. *)
Definition rootName (isJsonlFile : bool) : string :=
  if isJsonlFile then "jsonl_records" else "root".

(** [s] holds no path separator. *)
Fixpoint noDot (s : string) : bool :=
  match s with
  | EmptyString => true
  | String c s' => negb (Ascii.eqb c ".") && noDot s'
  end.

(** The window of a node is in order: an array of a large file shows at
    least a page and, past the first page, at most what it has; any other
    node keeps the count it was created with. *)
Definition windowInOrder (p : TreeNode.Props) (st : TreeNode.State) : Prop :=
  if TreeNode.isLargeFile p && TreeNode.isArray p
  then 100 <= TreeNode.visibleCount st
       /\ TreeNode.visibleCount st <= Nat.max 100 (TreeNode.dataLength p)
  else TreeNode.visibleCount st
       = TreeNode.visibleCount (TreeNode.initialState p).

(** The props that no event changes. *)
Definition sameNode (p p' : TreeNode.Props) : Prop :=
  TreeNode.data p' = TreeNode.data p
  /\ TreeNode.name p' = TreeNode.name p
  /\ TreeNode.level p' = TreeNode.level p
  /\ TreeNode.isLargeFile p' = TreeNode.isLargeFile p
  /\ TreeNode.path p' = TreeNode.path p.

(** The number of children that the window of an expanded node lets
    through. *)
Definition windowSize (p : TreeNode.Props) (st : TreeNode.State) : nat :=
  if TreeNode.isLargeFile p && TreeNode.isArray p
  then TreeNode.visibleCount st
  else TreeNode.childCount p.

(** A text with every line feed preceded by a carriage return (the line
    ends of a Windows text file). *)
Fixpoint toCRLF (s : string) : string :=
  match s with
  | EmptyString => EmptyString
  | String c s' =>
      if Ascii.eqb c JS.LF then String CR (String JS.LF (toCRLF s'))
      else String c (toCRLF s')
  end.

(** A line, or the same line with a carriage return at its end. *)
Definition sameLine (l' l : string) : Prop :=
  l' = l \/ l' = (l ++ String CR EmptyString)%string.

(** [s] holds no line feed: it is one line of a text. *)
Fixpoint noLF (s : string) : bool :=
  match s with
  | EmptyString => true
  | String c s' => negb (Ascii.eqb c JS.LF) && noLF s'
  end.

(** The lines of a text that are not blank. *)
Definition nonBlank (allLines : list string) : list string :=
  filter (fun line => negb (whitespaceOnly line)) allLines.

(** Every character of [s] is an ASCII character. *)
Fixpoint asciiOnly (s : string) : bool :=
  match s with
  | EmptyString => true
  | String c s' => (nat_of_ascii c <? 128) && asciiOnly s'
  end.

(** * Properties *)

(** ** Strings *)

Lemma trimStart_whitespaceOnly s :
  whitespaceOnly s = true -> JS.trimStart s = "".
Proof.
  induction s as [|c s IH]; simpl; [reflexivity|].
  intros H. apply andb_true_iff in H as [Hc Hs].
  rewrite Hc. auto.
Qed.

Lemma whitespaceOnly_trimStart s :
  whitespaceOnly (JS.trimStart s) = true -> whitespaceOnly s = true.
Proof.
  induction s as [|c s IH]; simpl; [reflexivity|].
  destruct (JS.isWhiteSpace c) eqn:Hc; simpl.
  - exact IH.
  - rewrite Hc. simpl. discriminate.
Qed.

Lemma trimEnd_empty s :
  JS.trimEnd s = "" -> whitespaceOnly s = true.
Proof.
  induction s as [|c s IH]; simpl; [reflexivity|].
  destruct (JS.trimEnd s) eqn:Ht.
  - destruct (JS.isWhiteSpace c); [intros _; simpl; auto | discriminate].
  - discriminate.
Qed.

Lemma trim_empty_iff s :
  JS.trim s = "" <-> whitespaceOnly s = true.
Proof.
  unfold JS.trim. split.
  - intros H. apply whitespaceOnly_trimStart, trimEnd_empty, H.
  - intros H. rewrite trimStart_whitespaceOnly by assumption. reflexivity.
Qed.

Lemma startsWith_spec s p :
  JS.startsWith s p = true <-> exists after, s = (p ++ after)%string.
Proof.
  unfold JS.startsWith. revert s.
  induction p as [|c p IH]; intros s.
  - destruct s; simpl; split; eauto.
  - destruct s as [|d s]; simpl.
    + split; [discriminate | intros [after H]; discriminate].
    + destruct (ascii_dec c d) as [->|Hne].
      * rewrite IH. split; intros [after H]; exists after.
        -- now subst.
        -- now inversion H.
      * split; [discriminate|].
        intros [after H]. inversion H. congruence.
Qed.

Lemma includes_cons c s sub :
  JS.includes (String c s) sub
  = JS.startsWith (String c s) sub || JS.includes s sub.
Proof. reflexivity. Qed.

Lemma includes_nil sub :
  JS.includes "" sub = JS.startsWith "" sub.
Proof. simpl. apply orb_false_r. Qed.

Lemma includes_spec s sub :
  JS.includes s sub = true <-> occursIn sub s.
Proof.
  unfold occursIn. induction s as [|c s IH].
  - rewrite includes_nil, startsWith_spec. split.
    + intros [after H]. exists "", after. exact H.
    + intros [before [after H]]. destruct before; simpl in H.
      * exists after. exact H.
      * discriminate.
  - rewrite includes_cons, orb_true_iff, startsWith_spec, IH. split.
    + intros [[after H] | [before [after H]]].
      * exists "", after. exact H.
      * exists (String c before), after. simpl. now rewrite H.
    + intros [before [after H]]. destruct before as [|d before]; simpl in H.
      * left. exists after. exact H.
      * right. inversion H. eauto.
Qed.

(** ** Search: the guards of [searchInData] *)

Lemma searchInData_blank data query path :
  whitespaceOnly query = true -> App.searchInData data query path = [].
Proof.
  intros H. apply trim_empty_iff in H.
  unfold App.searchInData. rewrite H. reflexivity.
Qed.

Lemma searchInData_falsy data query path :
  falsy data = true -> App.searchInData data query path = [].
Proof.
  intros H. unfold App.searchInData. rewrite H, orb_true_r. reflexivity.
Qed.

(** C9: [search(document, query)] returns the empty result whenever the
    query is empty or consists of white space only, or the document is
    absent ([jsonData] is [null]). *)
Theorem search_noop_on_blank_query_or_absent_document :
  forall (data : JsonValue) (query : string) (path : list string),
    whitespaceOnly query = true \/ data = JNull ->
    App.searchInData data query path = [].
Proof.
  intros data query path [Hq | ->].
  - now apply searchInData_blank.
  - now apply searchInData_falsy.
Qed.

Lemma search_noop_on_blank_query_or_absent_document_witness :
  (whitespaceOnly "  " = true \/ smallDoc = JNull)
  /\ App.searchInData smallDoc "  " [] = []
  /\ App.searchInData JNull "a" [] = [].
Proof.
  split; [left; reflexivity|]. split.
  - apply (search_noop_on_blank_query_or_absent_document smallDoc "  " []).
    left. reflexivity.
  - apply (search_noop_on_blank_query_or_absent_document JNull "a" []).
    right. reflexivity.
Defined.

(** C10: when the loaded document is the primitive [false], the number
    [0] or the empty string, the search returns no match for any query,
    also for a query that occurs, case ignored, in the string form of the
    document; the document [true] shows what a truthy primitive gives. *)
Theorem search_finds_nothing_in_falsy_documents :
  (forall (query : string) (path : list string),
      App.searchInData (JBool false) query path = []
      /\ App.searchInData (JNumber "0") query path = []
      /\ App.searchInData (JString "") query path = [])
  /\ containsQuery (String_ (JBool false)) "False"
  /\ containsQuery (String_ (JNumber "0")) "0"
  /\ App.searchInData (JBool true) "True" []
     = [App.valueResult [] (JBool true)].
Proof.
  split; [|split; [|split]].
  - intros query path. repeat split; now apply searchInData_falsy.
  - exists "", "". reflexivity.
  - exists "", "". reflexivity.
  - reflexivity.
Qed.

(** ** Expansion policy *)

Lemma nodeAt_level segs : forall p q,
  nodeAt p segs = Some q ->
  TreeNode.level q = TreeNode.level p + List.length segs.
Proof.
  induction segs as [|seg rest IH]; intros p q; simpl.
  - intros [= <-]. lia.
  - destruct (find _ _) as [[n d]|]; [|discriminate].
    intros H. apply IH in H. rewrite H. simpl. lia.
Qed.

(** C6: a node is expanded by default iff its level is below 1 in a large
    file and below 2 otherwise; in the small document
    [{"a": {"b": 1, "c": [1,2,3]}}] the root and [a] start expanded and
    [c], at level 2, starts collapsed. *)
Theorem shouldAutoExpand_by_level :
  (forall p : TreeNode.Props,
      (TreeNode.shouldAutoExpand p = true <->
       if TreeNode.isLargeFile p then TreeNode.level p < 1
       else TreeNode.level p < 2)
      /\ TreeNode.isExpanded (TreeNode.initialState p)
         = TreeNode.shouldAutoExpand p)
  /\ (forall (fileSize : N) (isJsonlFile : bool) (searchQuery : string)
        (searchResults : list App.SearchResult),
        App.isLargeFile fileSize = false ->
        let root :=
          rootProps smallDoc fileSize isJsonlFile searchQuery searchResults in
        TreeNode.level root = 0
        /\ TreeNode.shouldAutoExpand root = true
        /\ (exists a,
              nodeAt root ["a"] = Some a
              /\ TreeNode.level a = 1
              /\ TreeNode.shouldAutoExpand a = true)
        /\ (exists c,
              nodeAt root ["a"; "c"] = Some c
              /\ TreeNode.data c = JArray [JNumber "1"; JNumber "2"; JNumber "3"]
              /\ TreeNode.level c = 2
              /\ TreeNode.shouldAutoExpand c = false)).
Proof.
  split.
  - intros p. split; [|reflexivity].
    unfold TreeNode.shouldAutoExpand.
    destruct (TreeNode.isLargeFile p); apply Nat.ltb_lt.
  - intros fileSize isJsonlFile searchQuery searchResults Hsmall root.
    subst root. unfold rootProps, TreeNode.shouldAutoExpand. simpl.
    rewrite Hsmall. simpl.
    repeat split.
    + eexists. repeat split.
    + eexists. repeat split.
Qed.

Lemma shouldAutoExpand_by_level_witness :
  App.isLargeFile 29 = false
  /\ exists c,
       nodeAt (rootProps smallDoc 29 false "" []) ["a"; "c"] = Some c
       /\ TreeNode.data c = JArray [JNumber "1"; JNumber "2"; JNumber "3"]
       /\ TreeNode.level c = 2
       /\ TreeNode.shouldAutoExpand c = false.
Proof.
  split; [reflexivity|].
  apply (proj2 shouldAutoExpand_by_level 29%N false "" []).
  reflexivity.
Defined.

(** ** The window of an array node *)

Lemma forEachFrom_push {A B} (g : A -> nat -> B) (l : list A) :
  forall index acc,
    JS.forEachFrom (fun x i acc => acc ++ [g x i]) l index acc
    = acc ++ map (fun ix => g (snd ix) (fst ix))
               (combine (seq index (List.length l)) l).
Proof.
  induction l as [|x l IH]; intros index acc; simpl.
  - now rewrite app_nil_r.
  - rewrite IH, <- app_assoc. reflexivity.
Qed.

Lemma forEach_push_length {A B} (g : A -> nat -> B) (l : list A) :
  List.length (JS.forEach (fun x i acc => acc ++ [g x i]) l []) = List.length l.
Proof.
  unfold JS.forEach. rewrite forEachFrom_push. simpl.
  rewrite length_map, length_combine, length_seq. apply Nat.min_id.
Qed.

Lemma forEach_push_map {A B C} (g : A -> nat -> B) (h : B -> C) (l : list A) :
  (forall x i, h (g x i) = h (g x 0)) ->
  map h (JS.forEach (fun x i acc => acc ++ [g x i]) l [])
  = map (fun x => h (g x 0)) l.
Proof.
  intros Hg. unfold JS.forEach. rewrite forEachFrom_push. simpl.
  generalize 0 at 1. induction l as [|x l IH]; intros n; simpl.
  - reflexivity.
  - rewrite Hg, IH. reflexivity.
Qed.

Lemma slice_from_0 {A} (n : nat) (l : list A) :
  JS.slice 0 n l = firstn n l.
Proof. unfold JS.slice. now rewrite Nat.sub_0_r. Qed.

Lemma childEntries_length p st :
  List.length (TreeNode.childEntries p st) <= TreeNode.childCount p.
Proof.
  unfold TreeNode.childEntries, TreeNode.childCount.
  destruct (negb (TreeNode.isExpanded st) || TreeNode.isPrimitive p);
    [simpl; lia|].
  destruct (TreeNode.data p) as [| | | |items|entries]; simpl; try lia.
  - rewrite forEach_push_length, slice_from_0, length_firstn.
    apply Nat.le_min_r.
  - rewrite length_map. lia.
Qed.

Lemma canLoadMore_spec p st :
  TreeNode.canLoadMore p st = true <->
  TreeNode.isExpanded st = true /\ TreeNode.isArray p = true
  /\ TreeNode.isLargeFile p = true
  /\ TreeNode.visibleCount st < TreeNode.dataLength p.
Proof.
  unfold TreeNode.canLoadMore.
  rewrite !andb_true_iff, Nat.ltb_lt. tauto.
Qed.

Lemma dataLength_childCount p :
  TreeNode.isArray p = true -> TreeNode.dataLength p = TreeNode.childCount p.
Proof.
  unfold TreeNode.isArray, TreeNode.dataLength, TreeNode.childCount.
  destruct (TreeNode.data p); congruence.
Qed.

Lemma fire_loadMore p st p' st' :
  TreeNode.fire p st TreeNode.LoadMoreClick = Some (p', st') ->
  p' = p
  /\ TreeNode.isExpanded st' = TreeNode.isExpanded st
  /\ TreeNode.visibleCount st < TreeNode.visibleCount st'
  /\ TreeNode.visibleCount st' <= TreeNode.childCount p
  /\ TreeNode.visibleCount st'
     = Nat.min (TreeNode.visibleCount st + 100) (TreeNode.childCount p).
Proof.
  simpl. destruct (TreeNode.canLoadMore p st) eqn:Hc; [|discriminate].
  intros [= <- <-]. apply canLoadMore_spec in Hc as (_ & Ha & _ & Hlt).
  rewrite <- (dataLength_childCount p Ha). simpl.
  repeat split; lia.
Qed.

Lemma run_loadMore n : forall p st p' st',
  TreeNode.run p st (repeat TreeNode.LoadMoreClick n) = Some (p', st') ->
  p' = p
  /\ TreeNode.visibleCount st <= TreeNode.visibleCount st'
  /\ (0 < n -> TreeNode.visibleCount st < TreeNode.visibleCount st'
               /\ TreeNode.visibleCount st' <= TreeNode.childCount p).
Proof.
  induction n as [|n IH]; intros p st p' st'.
  - simpl. intros [= <- <-]. repeat split; lia.
  - cbn [repeat TreeNode.run].
    destruct (TreeNode.fire p st TreeNode.LoadMoreClick) as [[p1 st1]|] eqn:Hf;
      [|discriminate].
    intros Hrun. apply fire_loadMore in Hf as (-> & _ & Hlt & Hle & _).
    destruct n as [|n].
    + simpl in Hrun. injection Hrun as <- <-. repeat split; lia.
    + apply IH in Hrun as (-> & Hmono & Hpos).
      destruct Hpos as [Hlt' Hle']; [lia|]. repeat split; lia.
Qed.

Lemma childEntries_array_length p st :
  TreeNode.isExpanded st = true ->
  TreeNode.isArray p = true ->
  TreeNode.isLargeFile p = true ->
  List.length (TreeNode.childEntries p st)
  = Nat.min (TreeNode.visibleCount st) (TreeNode.childCount p).
Proof.
  unfold TreeNode.childEntries, TreeNode.isPrimitive, TreeNode.isObject,
    TreeNode.isArray, TreeNode.childCount.
  intros -> Ha ->.
  destruct (TreeNode.data p) as [| | | |items|entries]; try discriminate.
  simpl. now rewrite forEach_push_length, slice_from_0, length_firstn.
Qed.

Lemma fire_loadMore_exhausted p st :
  TreeNode.childCount p <= TreeNode.visibleCount st ->
  TreeNode.fire p st TreeNode.LoadMoreClick = None.
Proof.
  intros Hle. simpl.
  destruct (TreeNode.canLoadMore p st) eqn:Hc; [|reflexivity].
  apply canLoadMore_spec in Hc as (_ & Ha & _ & Hlt).
  rewrite (dataLength_childCount p Ha) in Hlt. lia.
Qed.

(** C4, as stated, fails: the stored [visibleCount] of a three-element
    array in a large file is the page size 100, above its child count. *)
Lemma visibleCount_exceeds_short_array :
  TreeNode.isArray shortArrayNode = true
  /\ TreeNode.childCount shortArrayNode = 3
  /\ TreeNode.visibleCount (TreeNode.mount shortArrayNode) = 100
  /\ ~ TreeNode.visibleCount (TreeNode.mount shortArrayNode)
       <= TreeNode.childCount shortArrayNode.
Proof.
  split; [reflexivity|]. split; [reflexivity|]. split; [reflexivity|].
  change (TreeNode.visibleCount (TreeNode.mount shortArrayNode)) with 100.
  change (TreeNode.childCount shortArrayNode) with 3.
  lia.
Qed.

(** C4, amended: the number of children that the window of a node exposes
    never exceeds its child count (for an expanded array of a large file
    it is the smaller of [visibleCount] and the child count); over any
    sequence of load-more clicks [visibleCount] does not decrease, each
    click strictly increases it and leaves it at most the child count; and
    once it has reached the child count no further click is offered. *)
Theorem window_bounded_and_growing :
  forall (p : TreeNode.Props) (st : TreeNode.State),
    List.length (TreeNode.childEntries p st) <= TreeNode.childCount p
    /\ (TreeNode.isExpanded st = true ->
        TreeNode.isArray p = true ->
        TreeNode.isLargeFile p = true ->
        List.length (TreeNode.childEntries p st)
        = Nat.min (TreeNode.visibleCount st) (TreeNode.childCount p))
    /\ (forall (n : nat) (p' : TreeNode.Props) (st' : TreeNode.State),
          TreeNode.run p st (repeat TreeNode.LoadMoreClick n) = Some (p', st') ->
          p' = p
          /\ TreeNode.visibleCount st <= TreeNode.visibleCount st'
          /\ (0 < n ->
              TreeNode.visibleCount st < TreeNode.visibleCount st'
              /\ TreeNode.visibleCount st' <= TreeNode.childCount p))
    /\ (TreeNode.childCount p <= TreeNode.visibleCount st ->
        TreeNode.fire p st TreeNode.LoadMoreClick = None).
Proof.
  intros p st. split; [apply childEntries_length|].
  split; [apply childEntries_array_length|].
  split; [intros n p' st'; apply run_loadMore|].
  apply fire_loadMore_exhausted.
Qed.

Lemma window_bounded_and_growing_witness :
  TreeNode.run mediumArrayNode (TreeNode.mount mediumArrayNode)
    (repeat TreeNode.LoadMoreClick 2)
  = Some (mediumArrayNode, TreeNode.mkState true 250)
  /\ (0 < 2 ->
      TreeNode.visibleCount (TreeNode.mount mediumArrayNode) < 250
      /\ 250 <= TreeNode.childCount mediumArrayNode)
  /\ TreeNode.fire mediumArrayNode (TreeNode.mkState true 250)
       TreeNode.LoadMoreClick = None.
Proof.
  assert (TreeNode.run mediumArrayNode (TreeNode.mount mediumArrayNode)
            (repeat TreeNode.LoadMoreClick 2)
          = Some (mediumArrayNode, TreeNode.mkState true 250)) as Hrun
    by (vm_compute; reflexivity).
  split; [exact Hrun|].
  destruct (window_bounded_and_growing mediumArrayNode
              (TreeNode.mount mediumArrayNode)) as (_ & _ & Hgrow & _).
  destruct (window_bounded_and_growing mediumArrayNode
              (TreeNode.mkState true 250)) as (_ & _ & _ & Hdone).
  split.
  - intros Hpos. exact (proj2 (proj2 (Hgrow 2 _ _ Hrun)) Hpos).
  - apply Hdone.
    change (TreeNode.childCount mediumArrayNode) with 250. apply le_n.
Defined.

(** *** The 2000-element array *)

Lemma mount_large_array_root items fileSize isJsonlFile q rs :
  App.isLargeFile fileSize = true ->
  TreeNode.mount (rootProps (JArray items) fileSize isJsonlFile q rs)
  = TreeNode.mkState true 100.
Proof.
  intros Hlarge.
  unfold TreeNode.mount, TreeNode.resetVisibleEffect, TreeNode.autoExpandEffect,
    TreeNode.initialState, TreeNode.shouldAutoExpand, rootProps.
  cbn [TreeNode.isLargeFile TreeNode.isArray TreeNode.data TreeNode.level
       TreeNode.searchQuery].
  rewrite Hlarge. cbn [andb Nat.ltb Nat.leb].
  destruct (JS.truthy q && _); reflexivity.
Qed.

Lemma run_loadMore_pages p len k : forall v,
  TreeNode.isArray p = true ->
  TreeNode.isLargeFile p = true ->
  TreeNode.dataLength p = len ->
  v + 100 * k <= len ->
  TreeNode.run p (TreeNode.mkState true v) (repeat TreeNode.LoadMoreClick k)
  = Some (p, TreeNode.mkState true (v + 100 * k)).
Proof.
  induction k as [|k IH]; intros v Ha Hl Hlen Hle.
  - simpl. now rewrite Nat.add_0_r.
  - cbn [repeat TreeNode.run TreeNode.fire].
    assert (TreeNode.canLoadMore p (TreeNode.mkState true v) = true) as ->.
    { apply canLoadMore_spec. cbn [TreeNode.isExpanded TreeNode.visibleCount].
      repeat split; try assumption. lia. }
    unfold TreeNode.loadMore. cbn [TreeNode.isExpanded TreeNode.visibleCount].
    rewrite Hlen, Nat.min_l by lia.
    rewrite IH by (try assumption; lia).
    do 3 f_equal. lia.
Qed.

(** C5: for a 2000-element top-level array of a large file the expanded
    root first exposes exactly its first 100 elements, with the label
    "1900 remaining"; [k] load-more clicks take the visible count to
    [100 + 100 * k], up to the array length 2000, where the affordance
    goes away; in general one click adds a page of 100, saturating at the
    array length, and an expanded array of a large file offers load-more
    iff the visible count is below the child count. *)
Theorem large_array_pages :
  (forall p st,
      TreeNode.visibleCount (TreeNode.loadMore p st)
      = Nat.min (TreeNode.visibleCount st + 100) (TreeNode.dataLength p))
  /\ (forall p st,
        TreeNode.isExpanded st = true ->
        TreeNode.isArray p = true ->
        TreeNode.isLargeFile p = true ->
        (TreeNode.canLoadMore p st = true <->
         TreeNode.visibleCount st < TreeNode.childCount p))
  /\ (forall (items : list JsonValue) (fileSize : N) (isJsonlFile : bool)
        (searchQuery : string) (searchResults : list App.SearchResult),
        List.length items = 2000 ->
        App.isLargeFile fileSize = true ->
        let root :=
          rootProps (JArray items) fileSize isJsonlFile searchQuery
            searchResults in
        let st := TreeNode.mount root in
        TreeNode.isExpanded st = true
        /\ TreeNode.visibleCount st = 100
        /\ map TreeNode.entryData (TreeNode.childEntries root st)
           = firstn 100 items
        /\ List.length (TreeNode.childEntries root st) = 100
        /\ TreeNode.canLoadMore root st = true
        /\ TreeNode.remainingLabel root st = "1900 remaining"
        /\ (forall k, k <= 19 ->
              exists st',
                TreeNode.run root st (repeat TreeNode.LoadMoreClick k)
                = Some (root, st')
                /\ TreeNode.isExpanded st' = true
                /\ TreeNode.visibleCount st' = 100 + 100 * k
                /\ List.length (TreeNode.childEntries root st') = 100 + 100 * k
                /\ (TreeNode.canLoadMore root st' = true <-> k < 19))
        /\ TreeNode.run root st (repeat TreeNode.LoadMoreClick 20) = None).
Proof.
  split; [reflexivity|]. split.
  - intros p st He Ha Hl. rewrite canLoadMore_spec, (dataLength_childCount p Ha).
    tauto.
  - intros items fileSize isJsonlFile q rs Hlen Hlarge root st.
    assert (st = TreeNode.mkState true 100) as Hst
      by (apply mount_large_array_root; assumption).
    assert (TreeNode.isArray root = true) as Ha by reflexivity.
    assert (TreeNode.isLargeFile root = true) as Hl by exact Hlarge.
    assert (TreeNode.dataLength root = 2000) as Hd by exact Hlen.
    assert (TreeNode.childCount root = 2000) as Hc by exact Hlen.
    assert (forall k, k <= 19 ->
              TreeNode.run root st (repeat TreeNode.LoadMoreClick k)
              = Some (root, TreeNode.mkState true (100 + 100 * k))) as Hrun.
    { intros k Hk. rewrite Hst.
      apply (run_loadMore_pages root 2000); try assumption. lia. }
    rewrite Hst. split; [reflexivity|]. split; [reflexivity|].
    split; [|split; [|split; [|split; [|split]]]].
    + unfold TreeNode.childEntries, TreeNode.isPrimitive, TreeNode.isObject.
      cbn [TreeNode.isExpanded TreeNode.visibleCount TreeNode.data root
           rootProps TreeNode.isArray TreeNode.isLargeFile negb orb andb].
      rewrite Hlarge, slice_from_0.
      rewrite forEach_push_map by reflexivity.
      cbn [TreeNode.entryData]. apply map_id.
    + rewrite childEntries_array_length by assumption.
      rewrite Hc. cbn [TreeNode.visibleCount]. apply Nat.min_l. lia.
    + apply canLoadMore_spec. rewrite Hd.
      cbn [TreeNode.isExpanded TreeNode.visibleCount].
      repeat split; try assumption. lia.
    + unfold TreeNode.remainingLabel. rewrite Hd.
      cbn [TreeNode.visibleCount].
      replace (2000 - 100) with 1900 by lia. reflexivity.
    + intros k Hk. exists (TreeNode.mkState true (100 + 100 * k)).
      rewrite <- Hst, (Hrun k Hk).
      split; [reflexivity|]. split; [reflexivity|]. split; [reflexivity|].
      split.
      * rewrite childEntries_array_length by (assumption || reflexivity).
        rewrite Hc. cbn [TreeNode.visibleCount]. apply Nat.min_l. lia.
      * rewrite canLoadMore_spec, Hd.
        cbn [TreeNode.isExpanded TreeNode.visibleCount].
        split; [intros (_ & _ & _ & H); lia|].
        intros H. repeat split; try assumption. lia.
    + replace (repeat TreeNode.LoadMoreClick 20)
        with (repeat TreeNode.LoadMoreClick 19 ++ [TreeNode.LoadMoreClick])
        by reflexivity.
      assert (forall evs1 evs2 p0 s0 p1 s1,
                 TreeNode.run p0 s0 evs1 = Some (p1, s1) ->
                 TreeNode.run p0 s0 (evs1 ++ evs2) = TreeNode.run p1 s1 evs2)
        as Happ.
      { induction evs1 as [|e evs1 IH]; intros evs2 p0 s0 p1 s1; simpl.
        - now intros [= -> ->].
        - destruct (TreeNode.fire p0 s0 e) as [[p2 s2]|]; [|discriminate].
          apply IH. }
      rewrite <- Hst, (Happ _ _ _ _ _ _ (Hrun 19 (le_n 19))).
      cbn [TreeNode.run].
      rewrite fire_loadMore_exhausted; [reflexivity|].
      rewrite Hc. cbn [TreeNode.visibleCount]. lia.
Qed.

Lemma large_array_pages_witness :
  List.length (repeat JNull 2000) = 2000
  /\ App.isLargeFile 6000000 = true
  /\ TreeNode.remainingLabel
       (rootProps (JArray (repeat JNull 2000)) 6000000 false "" [])
       (TreeNode.mount
          (rootProps (JArray (repeat JNull 2000)) 6000000 false "" []))
     = "1900 remaining".
Proof.
  split; [apply repeat_length|]. split; [reflexivity|].
  destruct (proj2 (proj2 large_array_pages) (repeat JNull 2000) 6000000%N
              false "" [] (repeat_length JNull 2000) eq_refl)
    as (_ & _ & _ & _ & _ & Hlabel & _).
  exact Hlabel.
Defined.

(** ** Forced expansion *)

Lemma find_name_eq seg (l : list (string * JsonValue)) n d :
  find (fun e => String.eqb (fst e) seg) l = Some (n, d) -> n = seg.
Proof.
  intros H. apply find_some in H as [_ H]. simpl in H.
  now apply String.eqb_eq.
Qed.

(** The node for the value at [segs] compares the search results with the
    name of the root followed by [segs]. *)
Lemma nodeAt_currentPath segs : forall p q,
  nodeAt p segs = Some q ->
  TreeNode.currentPath q = TreeNode.currentPath p ++ segs.
Proof.
  induction segs as [|seg rest IH]; intros p q; simpl.
  - intros [= <-]. now rewrite app_nil_r.
  - destruct (find _ _) as [[n d]|] eqn:Hfind; [|discriminate].
    apply find_name_eq in Hfind as ->.
    intros H. apply IH in H. rewrite H.
    unfold TreeNode.currentPath at 1. simpl. now rewrite <- app_assoc.
Qed.

(** Where a node does report a search match under a non-empty query, the
    effect expands it. *)
Lemma autoExpandEffect_forces p st :
  JS.truthy (TreeNode.searchQuery p) = true ->
  TreeNode.isSearchMatch p = true ->
  TreeNode.isExpanded (TreeNode.autoExpandEffect p st) = true.
Proof.
  intros Hq Hm. unfold TreeNode.autoExpandEffect. now rewrite Hq, Hm.
Qed.

(** C1 fails on the code: in [{"a": {"b": {"c": 1}}}] with the query "c"
    the one match has the path [a.b.c], which starts with the path [a.b]
    plus the separator; the node of [b] compares it with [root.a.b], so
    it reports no search match and stays collapsed. *)
Lemma match_below_node_is_missed :
  let rs := App.searchEffect nestedDoc "c" in
  rs = [App.keyResult ["a"; "b"; "c"] "c" (JNumber "1")]
  /\ JS.join "." (["a"; "b"] ++ ["c"]) = (JS.join "." ["a"; "b"] ++ "." ++ "c")%string
  /\ exists b,
       nodeAt (rootProps nestedDoc 29 false "c" rs) ["a"; "b"] = Some b
       /\ TreeNode.data b = JObject [("c", JNumber "1")]
       /\ TreeNode.pathString b = "root.a.b"
       /\ TreeNode.isSearchMatch b = false
       /\ TreeNode.shouldAutoExpand b = false
       /\ TreeNode.isExpanded (TreeNode.mount b) = false
       /\ TreeNode.run (TreeNode.withSearch b "" [])
            (TreeNode.mount (TreeNode.withSearch b "" []))
            [TreeNode.Rerender "c" rs]
          = Some (b, TreeNode.mkState false 0).
Proof.
  split; [reflexivity|]. split; [reflexivity|].
  eexists. split; [reflexivity|]. repeat split.
Qed.

(** C3, as stated, fails: the node at level 2 of
    [{"root": {"root": {"root": 1}}}] starts collapsed, the query "root"
    forces it open, and after the query is cleared (no click in between)
    it is still expanded. *)
Lemma forced_expansion_outlives_search :
  let rs := App.searchEffect rootsDoc "root" in
  nodeAt (rootProps rootsDoc 47 false "" []) ["root"; "root"]
  = Some innerRootNode
  /\ TreeNode.shouldAutoExpand innerRootNode = false
  /\ TreeNode.isExpanded (TreeNode.mount innerRootNode) = false
  /\ TreeNode.run innerRootNode (TreeNode.mount innerRootNode)
       [TreeNode.Rerender "root" rs]
     = Some (TreeNode.withSearch innerRootNode "root" rs,
             TreeNode.mkState true 0)
  /\ App.searchEffect rootsDoc "" = []
  /\ TreeNode.run innerRootNode (TreeNode.mount innerRootNode)
       [TreeNode.Rerender "root" rs; TreeNode.Rerender "" rs;
        TreeNode.Rerender "" []]
     = Some (innerRootNode, TreeNode.mkState true 0)
  /\ TreeNode.mkState true 0 <> TreeNode.mount innerRootNode.
Proof.
  repeat split. discriminate.
Qed.

Lemma afterExpansion_same p st : TreeNode.afterExpansion p st st = st.
Proof.
  unfold TreeNode.afterExpansion. now rewrite Bool.eqb_reflx.
Qed.

Lemma afterExpansion_isExpanded p old new :
  TreeNode.isExpanded (TreeNode.afterExpansion p old new)
  = TreeNode.isExpanded new.
Proof.
  unfold TreeNode.afterExpansion, TreeNode.resetVisibleEffect.
  destruct (Bool.eqb _ _); [reflexivity|].
  destruct (_ && _); reflexivity.
Qed.

(** C3, amended: clearing the search query changes the state of no
    mounted node: each node keeps the expansion state it had just before,
    a forced expansion included; [isExpanded] changes only through a click
    on the node or through a forced expansion under a non-empty query. *)
Theorem clearing_search_keeps_expansion :
  (forall (p : TreeNode.Props) (st : TreeNode.State)
      (rs : list App.SearchResult),
      TreeNode.fire p st (TreeNode.Rerender "" rs)
      = Some (TreeNode.withSearch p "" rs, st))
  /\ (forall (p p' : TreeNode.Props) (st st' : TreeNode.State)
        (ev : TreeNode.Event),
        TreeNode.fire p st ev = Some (p', st') ->
        TreeNode.isExpanded st' <> TreeNode.isExpanded st ->
        ev = TreeNode.Click
        \/ exists q rs,
            ev = TreeNode.Rerender q rs
            /\ JS.truthy q = true
            /\ TreeNode.isSearchMatch p' = true
            /\ TreeNode.isExpanded st' = true).
Proof.
  split.
  - intros p st rs. cbn [TreeNode.fire].
    assert (TreeNode.autoExpandEffect (TreeNode.withSearch p "" rs) st = st)
      as -> by reflexivity.
    destruct (_ || _); now rewrite afterExpansion_same.
  - intros p p' st st' [| |q rs]; cbn [TreeNode.fire].
    + intros _ _. now left.
    + destruct (TreeNode.canLoadMore p st); [|discriminate].
      intros [= <- <-]. simpl. congruence.
    + intros [= <- <-] Hne. right. exists q, rs.
      rewrite afterExpansion_isExpanded in Hne |- *.
      destruct (_ || _); [|congruence].
      unfold TreeNode.autoExpandEffect in Hne |- *.
      destruct (JS.truthy (TreeNode.searchQuery (TreeNode.withSearch p q rs))
                && TreeNode.isSearchMatch (TreeNode.withSearch p q rs)) eqn:Hc;
        [|congruence].
      apply andb_true_iff in Hc as [Hq Hm]. auto.
Qed.

Lemma clearing_search_keeps_expansion_witness :
  TreeNode.fire innerRootNode (TreeNode.mount innerRootNode) TreeNode.Click
  = Some (innerRootNode, TreeNode.mkState true 0)
  /\ (TreeNode.Click = TreeNode.Click
      \/ exists q rs,
          TreeNode.Click = TreeNode.Rerender q rs
          /\ JS.truthy q = true
          /\ TreeNode.isSearchMatch innerRootNode = true
          /\ TreeNode.isExpanded (TreeNode.mkState true 0) = true).
Proof.
  split; [reflexivity|].
  apply (proj2 clearing_search_keeps_expansion innerRootNode innerRootNode
           (TreeNode.mount innerRootNode) (TreeNode.mkState true 0)
           TreeNode.Click).
  - reflexivity.
  - discriminate.
Defined.

(** ** Loading a JSONL file *)

Section Jsonl.
Variable JSON_parse : string -> JsonValue + string.

Lemma forEachFrom_parseLine lines : forall index parsedLines errors,
  JS.forEachFrom (App.parseLine JSON_parse) lines index (parsedLines, errors)
  = (parsedLines ++ parsedValues JSON_parse lines,
     errors ++ lineErrors JSON_parse index lines).
Proof.
  induction lines as [|line rest IH]; intros index parsedLines errors.
  - simpl. now rewrite !app_nil_r.
  - cbn [JS.forEachFrom parsedValues lineErrors App.parseLine].
    destruct (JSON_parse (JS.trim line)) as [parsed|message];
      rewrite IH, <- app_assoc; reflexivity.
Qed.

Lemma parseLines_spec lines :
  App.parseLines JSON_parse lines
  = (parsedValues JSON_parse lines, lineErrors JSON_parse 0 lines).
Proof.
  unfold App.parseLines, JS.forEach. now rewrite forEachFrom_parseLine.
Qed.

Lemma lineErrors_length lines : forall index,
  List.length (lineErrors JSON_parse index lines)
  = failedCount JSON_parse lines.
Proof.
  unfold failedCount, lineParses.
  induction lines as [|line rest IH]; intros index; simpl; [reflexivity|].
  destruct (JSON_parse (JS.trim line)); simpl; now rewrite IH.
Qed.

Lemma parsedValues_nil_iff lines :
  parsedValues JSON_parse lines = []
  <-> forallb (fun line => negb (lineParses JSON_parse line)) lines = true.
Proof.
  unfold lineParses.
  induction lines as [|line rest IH]; simpl; [tauto|].
  destruct (JSON_parse (JS.trim line)); simpl.
  - split; discriminate.
  - exact IH.
Qed.



End Jsonl.


(** ** The search traversal *)

(** Induction on a JSON value, with the hypothesis for every child. *)
Lemma JsonValue_induction (P : JsonValue -> Prop) :
  P JNull ->
  (forall b, P (JBool b)) ->
  (forall repr, P (JNumber repr)) ->
  (forall s, P (JString s)) ->
  (forall items, Forall P items -> P (JArray items)) ->
  (forall entries, Forall (fun e => P (snd e)) entries -> P (JObject entries)) ->
  forall v, P v.
Proof.
  intros Hnull Hbool Hnum Hstr Harr Hobj.
  fix IH 1. intros [|b|repr|s|items|entries].
  - exact Hnull.
  - apply Hbool.
  - apply Hnum.
  - apply Hstr.
  - apply Harr. induction items as [|item items IHitems].
    + constructor.
    + constructor; [apply IH | exact IHitems].
  - apply Hobj. induction entries as [|[k v] entries IHentries].
    + constructor.
    + constructor; [apply IH | exact IHentries].
Qed.

Lemma search_unfold lowerQuery obj currentPath depth results :
  App.search lowerQuery obj currentPath depth results
  = if searchGuard depth results then results
    else
      match obj with
      | JNull => results
      | JArray items =>
          App.eachBelowLimit (App.itemCallback lowerQuery currentPath depth)
            items 0 results
      | JObject entries =>
          App.eachBelowLimit (App.entryCallback lowerQuery currentPath depth)
            entries 0 results
      | _ =>
          if JS.includes (JS.toLowerCase (String_ obj)) lowerQuery
          then results ++ [App.valueResult currentPath obj]
          else results
      end.
Proof.
  unfold searchGuard. destruct obj as [|b|repr|s|items|entries]; try reflexivity.
  - cbn [App.search]. destruct (_ || _); [reflexivity|].
    generalize 0. generalize results.
    induction items as [|item items IH]; intros rs n; [reflexivity|].
    cbn [App.eachBelowLimit]. destruct (n <? App.MAX_SIBLINGS); [|reflexivity].
    rewrite <- IH. reflexivity.
  - cbn [App.search]. destruct (_ || _); [reflexivity|].
    generalize 0. generalize results.
    induction entries as [|[k v] entries IH]; intros rs n; [reflexivity|].
    cbn [App.eachBelowLimit]. destruct (n <? App.MAX_SIBLINGS); [|reflexivity].
    rewrite <- IH. reflexivity.
Qed.

(** The loops are [slice(0, 1000).forEach(callback)]. *)
Lemma eachBelowLimit_forEachFrom {A}
    (callback : A -> nat -> list App.SearchResult -> list App.SearchResult)
    (l : list A) :
  forall index results,
    App.eachBelowLimit callback l index results
    = JS.forEachFrom callback (firstn (App.MAX_SIBLINGS - index) l) index results.
Proof.
  induction l as [|x l IH]; intros index results.
  - now rewrite firstn_nil.
  - cbn [App.eachBelowLimit]. destruct (index <? App.MAX_SIBLINGS) eqn:Hlt.
    + apply Nat.ltb_lt in Hlt.
      replace (App.MAX_SIBLINGS - index) with (S (App.MAX_SIBLINGS - S index))
        by lia.
      rewrite firstn_cons. cbn [JS.forEachFrom]. apply IH.
    + apply Nat.ltb_ge in Hlt.
      replace (App.MAX_SIBLINGS - index) with 0 by lia.
      reflexivity.
Qed.

Lemma eachBelowLimit_forEach {A}
    (callback : A -> nat -> list App.SearchResult -> list App.SearchResult)
    (l : list A) (results : list App.SearchResult) :
  App.eachBelowLimit callback l 0 results
  = JS.forEach callback (JS.slice 0 1000 l) results.
Proof.
  rewrite eachBelowLimit_forEachFrom, slice_from_0, Nat.sub_0_r. reflexivity.
Qed.

(** *** Every result is a match *)

Lemma combine_seq_In {A} (l : list A) : forall start j x,
  nth_error l j = Some x ->
  In (start + j, x) (combine (seq start (List.length l)) l).
Proof.
  induction l as [|y l IH]; intros start [|j] x; simpl; try discriminate.
  - intros [= ->]. left. f_equal. lia.
  - intros H. right. replace (start + S j) with (S start + j) by lia.
    now apply IH.
Qed.

Lemma children_array_In items j item :
  nth_error items j = Some item ->
  In (indexName j, item) (children (JArray items)).
Proof.
  intros H. unfold children, JS.forEach. rewrite forEachFrom_push. simpl.
  apply (in_map (fun ix => (indexName (fst ix), snd ix)) _ (j, item)).
  now apply (combine_seq_In items 0 j).
Qed.

Lemma soundBelow_child lowerQuery obj currentPath seg child m :
  In (seg, child) (children obj) ->
  soundBelow lowerQuery child (currentPath ++ [seg]) m ->
  soundBelow lowerQuery obj currentPath m.
Proof.
  intros Hin (rel & Hpath & Hstr & Hm).
  exists (seg :: rel). split; [now rewrite Hpath, <- app_assoc|].
  split; [exact Hstr|].
  destruct (App.type m).
  - destruct Hm as (parent & entries & k & -> & Hk & Hres & Hentry & Hinc).
    exists (seg :: parent), entries, k.
    repeat split; try assumption. econstructor; eassumption.
  - destruct Hm as (Hk & Hres & Hm). split; [exact Hk|].
    split; [econstructor; eassumption | exact Hm].
Qed.

Lemma eachItem_sound lowerQuery currentPath depth l :
  Forall (searchSound lowerQuery) l ->
  forall index results,
  exists new,
    App.eachBelowLimit (App.itemCallback lowerQuery currentPath depth)
      l index results = results ++ new
    /\ Forall (fun m => exists j item,
                 nth_error l j = Some item
                 /\ soundBelow lowerQuery item
                      (currentPath ++ [indexName (index + j)]) m) new.
Proof.
  induction 1 as [|item l Hitem _ IH]; intros index results.
  - exists []. split; [now rewrite app_nil_r | constructor].
  - cbn [App.eachBelowLimit].
    destruct (index <? App.MAX_SIBLINGS);
      [|exists []; split; [now rewrite app_nil_r | constructor]].
    assert (exists new1,
               App.itemCallback lowerQuery currentPath depth item index results
               = results ++ new1
               /\ Forall (soundBelow lowerQuery item
                            (currentPath ++ [indexName index])) new1)
      as (new1 & -> & Hnew1).
    { unfold App.itemCallback.
      destruct (App.MAX_RESULTS <=? List.length results).
      - exists []. split; [now rewrite app_nil_r | constructor].
      - apply Hitem. }
    destruct (IH (S index) (results ++ new1)) as (new2 & -> & Hnew2).
    exists (new1 ++ new2). split; [now rewrite app_assoc|].
    apply Forall_app. split.
    + eapply Forall_impl; [|exact Hnew1]. intros m Hm.
      exists 0, item. split; [reflexivity|]. now rewrite Nat.add_0_r.
    + eapply Forall_impl; [|exact Hnew2]. intros m (j & x & Hj & Hm).
      exists (S j), x. split; [exact Hj|].
      now replace (index + S j) with (S index + j) by lia.
Qed.

Lemma eachEntry_sound lowerQuery currentPath depth l :
  Forall (fun e => searchSound lowerQuery (snd e)) l ->
  forall index results,
  exists new,
    App.eachBelowLimit (App.entryCallback lowerQuery currentPath depth)
      l index results = results ++ new
    /\ Forall (fun m => exists k v,
                 In (k, v) l
                 /\ ((m = App.keyResult (currentPath ++ [k]) k v
                      /\ JS.includes (JS.toLowerCase k) lowerQuery = true)
                     \/ soundBelow lowerQuery v (currentPath ++ [k]) m)) new.
Proof.
  induction 1 as [|[k v] l Hentry _ IH]; intros index results.
  - exists []. split; [now rewrite app_nil_r | constructor].
  - cbn [App.eachBelowLimit].
    destruct (index <? App.MAX_SIBLINGS);
      [|exists []; split; [now rewrite app_nil_r | constructor]].
    assert (exists new1,
               App.entryCallback lowerQuery currentPath depth (k, v) index results
               = results ++ new1
               /\ Forall (fun m =>
                            (m = App.keyResult (currentPath ++ [k]) k v
                             /\ JS.includes (JS.toLowerCase k) lowerQuery = true)
                            \/ soundBelow lowerQuery v (currentPath ++ [k]) m)
                    new1)
      as (new1 & -> & Hnew1).
    { unfold App.entryCallback.
      destruct (App.MAX_RESULTS <=? List.length results).
      - exists []. split; [now rewrite app_nil_r | constructor].
      - cbv zeta. simpl in Hentry.
        destruct (JS.includes (JS.toLowerCase k) lowerQuery) eqn:Hinc.
        + destruct (Hentry (currentPath ++ [k]) (S depth)
                      (results ++ [App.keyResult (currentPath ++ [k]) k v]))
            as (new & -> & Hnew).
          exists (App.keyResult (currentPath ++ [k]) k v :: new).
          split; [now rewrite <- app_assoc|].
          constructor; [now left|].
          eapply Forall_impl; [|exact Hnew]. intros m Hm. now right.
        + destruct (Hentry (currentPath ++ [k]) (S depth) results)
            as (new & -> & Hnew).
          exists new. split; [reflexivity|].
          eapply Forall_impl; [|exact Hnew]. intros m Hm. now right. }
    destruct (IH (S index) (results ++ new1)) as (new2 & -> & Hnew2).
    exists (new1 ++ new2). split; [now rewrite app_assoc|].
    apply Forall_app. split.
    + eapply Forall_impl; [|exact Hnew1]. intros m Hm.
      exists k, v. split; [now left | exact Hm].
    + eapply Forall_impl; [|exact Hnew2]. intros m (k' & v' & Hin & Hm).
      exists k', v'. split; [now right | exact Hm].
Qed.

Lemma valueResult_sound lowerQuery obj currentPath :
  isContainer obj = false ->
  obj <> JNull ->
  JS.includes (JS.toLowerCase (String_ obj)) lowerQuery = true ->
  soundBelow lowerQuery obj currentPath (App.valueResult currentPath obj).
Proof.
  intros Hprim Hnull Hinc. exists []. simpl.
  rewrite app_nil_r. repeat split; try assumption. constructor.
Qed.

Lemma search_sound lowerQuery : forall obj, searchSound lowerQuery obj.
Proof.
  assert (forall obj currentPath (results : list App.SearchResult),
             isContainer obj = false -> obj <> JNull ->
             exists new,
               (if JS.includes (JS.toLowerCase (String_ obj)) lowerQuery
                then results ++ [App.valueResult currentPath obj]
                else results) = results ++ new
               /\ Forall (soundBelow lowerQuery obj currentPath) new) as Hprim.
  { intros obj currentPath results Hc Hn.
    destruct (JS.includes _ _) eqn:Hinc.
    - eexists. split; [reflexivity|]. constructor; [|constructor].
      now apply valueResult_sound.
    - exists []. split; [now rewrite app_nil_r | constructor]. }
  assert (forall results : list App.SearchResult,
             exists new : list App.SearchResult,
               results = results ++ new
               /\ forall P, Forall P new) as Hsame.
  { intros results. exists []. split; [now rewrite app_nil_r | constructor]. }
  induction obj as [|b|repr|s|items IH|entries IH] using JsonValue_induction;
    intros currentPath depth results; rewrite search_unfold;
    destruct (searchGuard depth results);
    try (destruct (Hsame results) as (new & Hnew & HP); exists new;
         split; [exact Hnew | apply HP]);
    try (apply Hprim; [reflexivity | discriminate]).
  - destruct (eachItem_sound lowerQuery currentPath depth items IH 0 results)
      as (new & -> & Hnew).
    exists new. split; [reflexivity|].
    eapply Forall_impl; [|exact Hnew]. intros m (j & item & Hj & Hm).
    eapply soundBelow_child; [|exact Hm].
    now apply children_array_In.
  - destruct (eachEntry_sound lowerQuery currentPath depth entries IH 0 results)
      as (new & -> & Hnew).
    exists new. split; [reflexivity|].
    eapply Forall_impl; [|exact Hnew].
    intros m (k & v & Hin & [[-> Hinc] | Hm]).
    + exists [k]. simpl. repeat split.
      exists [], entries, k. repeat split; try assumption. constructor.
    + eapply soundBelow_child; [|exact Hm]. exact Hin.
Qed.

Lemma In_firstn {A} n (l : list A) x : In x (firstn n l) -> In x l.
Proof.
  intros H. rewrite <- (firstn_skipn n l). apply in_or_app. now left.
Qed.

Lemma soundBelow_root query doc m :
  soundBelow (JS.toLowerCase query) doc [] m -> soundMatch doc query m.
Proof.
  intros (rel & Hpath & Hstr & Hm). simpl in Hpath.
  split; [exact Hstr|]. rewrite Hpath. unfold containsQuery.
  destruct (App.type m).
  - destruct Hm as (parent & entries & k & -> & Hk & Hres & Hin & Hinc).
    exists parent, entries, k. repeat split; try assumption.
    now apply includes_spec.
  - destruct Hm as (Hk & Hres & Hc & Hn & Hinc).
    repeat split; try assumption. now apply includes_spec.
Qed.

(** C2: the search returns at most 1000 matches, and every match it
    returns is sound: its path leads from the document to a primitive
    value whose string form contains the query, or to an entry of an
    object whose key contains the query, the case of letters ignored; the
    value of a value match is never a container. *)
Theorem search_results_bounded_and_sound :
  forall (doc : JsonValue) (query : string),
    List.length (App.searchInData doc query []) <= 1000
    /\ forall m : App.SearchResult,
         In m (App.searchInData doc query []) ->
         soundMatch doc query m
         /\ (App.type m = App.value_ -> isContainer (App.value m) = false).
Proof.
  intros doc query. unfold App.searchInData.
  destruct (negb (JS.truthy (JS.trim query)) || falsy doc).
  - split; [simpl; lia | intros m []].
  - cbv zeta. rewrite slice_from_0. split.
    + rewrite length_firstn. apply Nat.le_min_l.
    + intros m Hin. apply In_firstn in Hin.
      destruct (search_sound (JS.toLowerCase query) doc [] 0 [])
        as (new & Hsearch & Hnew).
      rewrite Hsearch in Hin. simpl in Hin.
      rewrite Forall_forall in Hnew. specialize (Hnew m Hin).
      apply soundBelow_root in Hnew. split; [exact Hnew|].
      intros Htype. destruct Hnew as [_ Hm]. rewrite Htype in Hm. tauto.
Qed.

Lemma search_results_bounded_and_sound_witness :
  App.searchInData answerDoc "42" []
  = [App.valueResult ["x"] (JNumber "42");
     App.valueResult ["y"] (JString "value42")]
  /\ soundMatch answerDoc "42" (App.valueResult ["y"] (JString "value42"))
  /\ isContainer (JString "value42") = false.
Proof.
  assert (App.searchInData answerDoc "42" []
          = [App.valueResult ["x"] (JNumber "42");
             App.valueResult ["y"] (JString "value42")]) as Hsearch
    by (vm_compute; reflexivity).
  split; [exact Hsearch|].
  destruct (search_results_bounded_and_sound answerDoc "42") as [_ Hsound].
  destruct (Hsound (App.valueResult ["y"] (JString "value42"))) as [Hm Hprim].
  - rewrite Hsearch. right. left. reflexivity.
  - split; [exact Hm | exact (Hprim eq_refl)].
Defined.

(** *** The traversal is bounded *)

Lemma searchGuard_false depth results :
  searchGuard depth results = false ->
  List.length results < App.MAX_RESULTS /\ depth <= App.MAX_DEPTH.
Proof.
  unfold searchGuard. intros H. apply orb_false_iff in H as [H1 H2].
  apply Nat.leb_gt in H1. apply Nat.ltb_ge in H2. now split.
Qed.

Lemma searchGuard_full depth results :
  App.MAX_RESULTS <= List.length results -> searchGuard depth results = true.
Proof.
  intros H. unfold searchGuard. apply Nat.leb_le in H. now rewrite H.
Qed.

Lemma searchGuard_deep depth results :
  App.MAX_DEPTH < depth -> searchGuard depth results = true.
Proof.
  intros H. unfold searchGuard. apply Nat.ltb_lt in H. rewrite H.
  apply orb_true_r.
Qed.

Lemma searchCalls_unfold lowerQuery obj currentPath depth results :
  searchCalls lowerQuery obj currentPath depth results
  = if searchGuard depth results then 1
    else
      match obj with
      | JArray items =>
          S (callsBelowLimit
               (fun item index results =>
                  if App.MAX_RESULTS <=? List.length results then 0
                  else searchCalls lowerQuery item
                         (currentPath ++ [indexName index]) (S depth) results)
               (App.itemCallback lowerQuery currentPath depth)
               items 0 results)
      | JObject entries =>
          S (callsBelowLimit
               (fun entry index results =>
                  if App.MAX_RESULTS <=? List.length results then 0
                  else
                    let newPath := currentPath ++ [fst entry] in
                    searchCalls lowerQuery (snd entry) newPath (S depth)
                      (if JS.includes (JS.toLowerCase (fst entry)) lowerQuery
                       then results ++ [App.keyResult newPath (fst entry)
                                          (snd entry)]
                       else results))
               (App.entryCallback lowerQuery currentPath depth)
               entries 0 results)
      | _ => 1
      end.
Proof. destruct obj; reflexivity. Qed.

Lemma callBound_pos levels : 1 <= callBound levels.
Proof. destruct levels; simpl; lia. Qed.

Lemma callsBelowLimit_bound {A}
    (cost : A -> nat -> list App.SearchResult -> nat)
    (callback : A -> nat -> list App.SearchResult -> list App.SearchResult)
    (bound : nat) (l : list A) :
  Forall (fun x => forall index results, cost x index results <= bound) l ->
  forall index results,
    callsBelowLimit cost callback l index results
    <= (App.MAX_SIBLINGS - index) * bound.
Proof.
  induction 1 as [|x l Hx _ IH]; intros index results.
  - simpl. lia.
  - cbn [callsBelowLimit]. destruct (index <? App.MAX_SIBLINGS) eqn:Hlt.
    + apply Nat.ltb_lt in Hlt.
      replace (App.MAX_SIBLINGS - index) with (S (App.MAX_SIBLINGS - S index))
        by lia.
      rewrite Nat.mul_succ_l, Nat.add_comm.
      apply Nat.add_le_mono; [apply IH | apply Hx].
    + apply Nat.le_0_l.
Qed.

Lemma searchCalls_bound lowerQuery : forall obj currentPath depth results,
  searchCalls lowerQuery obj currentPath depth results
  <= callBound (App.MAX_DEPTH + 1 - depth).
Proof.
  induction obj as [|b|repr|s|items IH|entries IH] using JsonValue_induction;
    intros currentPath depth results; rewrite searchCalls_unfold;
    destruct (searchGuard depth results) eqn:Hguard;
    try apply callBound_pos.
  - apply searchGuard_false in Hguard as [_ Hdepth].
    replace (App.MAX_DEPTH + 1 - depth) with (S (App.MAX_DEPTH - depth)) by lia.
    cbn [callBound]. rewrite <- (Nat.sub_0_r App.MAX_SIBLINGS) at 1.
    apply le_n_S, callsBelowLimit_bound.
    eapply Forall_impl; [|exact IH]. intros item Hitem index rs.
    destruct (App.MAX_RESULTS <=? List.length rs); [lia|].
    specialize (Hitem (currentPath ++ [indexName index]) (S depth) rs).
    now replace (App.MAX_DEPTH + 1 - S depth) with (App.MAX_DEPTH - depth)
      in Hitem by lia.
  - apply searchGuard_false in Hguard as [_ Hdepth].
    replace (App.MAX_DEPTH + 1 - depth) with (S (App.MAX_DEPTH - depth)) by lia.
    cbn [callBound]. rewrite <- (Nat.sub_0_r App.MAX_SIBLINGS) at 1.
    apply le_n_S, callsBelowLimit_bound.
    eapply Forall_impl; [|exact IH]. intros [k v] Hentry index rs.
    destruct (App.MAX_RESULTS <=? List.length rs); [lia|].
    cbv zeta. simpl fst. simpl snd.
    match goal with
    | |- searchCalls _ _ ?p _ ?r <= _ => specialize (Hentry p (S depth) r)
    end.
    now replace (App.MAX_DEPTH + 1 - S depth) with (App.MAX_DEPTH - depth)
      in Hentry by lia.
Qed.

(** *** Nothing beyond the limits is looked at *)

Lemma search_guarded lowerQuery obj currentPath depth results :
  searchGuard depth results = true ->
  App.search lowerQuery obj currentPath depth results = results.
Proof. intros H. now rewrite search_unfold, H. Qed.

Lemma clip_unfold levels v :
  clip levels v
  = let below : JsonValue -> JsonValue :=
      match levels with
      | 0 => fun _ => JNull
      | S n => clip n
      end in
    match v with
    | JArray items => JArray (map below (firstn App.MAX_SIBLINGS items))
    | JObject entries =>
        JObject (map (fun e => (fst e, below (snd e)))
                   (firstn App.MAX_SIBLINGS entries))
    | _ => v
    end.
Proof. destruct levels; reflexivity. Qed.

Lemma locations_length (rs rs' : list App.SearchResult) :
  map location rs = map location rs' -> List.length rs = List.length rs'.
Proof.
  intros H. apply (f_equal (@List.length _)) in H.
  now rewrite !length_map in H.
Qed.

Lemma locations_guard depth (rs rs' : list App.SearchResult) :
  map location rs = map location rs' ->
  searchGuard depth rs = searchGuard depth rs'.
Proof.
  intros H. unfold searchGuard. now rewrite (locations_length rs rs' H).
Qed.

Lemma search_clipBelow lowerQuery child currentPath depth rs rs' :
  searchClipped lowerQuery child ->
  map location rs = map location rs' ->
  map location (App.search lowerQuery child currentPath (S depth) rs)
  = map location
      (App.search lowerQuery (clipBelow depth child) currentPath (S depth) rs').
Proof.
  intros Hchild Hrs. unfold clipBelow.
  destruct (App.MAX_DEPTH - depth) as [|n] eqn:Hlevels.
  - rewrite !search_guarded by (apply searchGuard_deep; lia). exact Hrs.
  - replace n with (App.MAX_DEPTH - S depth) by lia. now apply Hchild.
Qed.

Lemma eachItem_clipped lowerQuery currentPath depth l :
  Forall (searchClipped lowerQuery) l ->
  forall index rs rs',
    map location rs = map location rs' ->
    map location
      (App.eachBelowLimit (App.itemCallback lowerQuery currentPath depth)
         l index rs)
    = map location
        (App.eachBelowLimit (App.itemCallback lowerQuery currentPath depth)
           (map (clipBelow depth) (firstn (App.MAX_SIBLINGS - index) l))
           index rs').
Proof.
  induction 1 as [|item l Hitem _ IH]; intros index rs rs' Hrs.
  - now rewrite firstn_nil.
  - cbn [App.eachBelowLimit]. destruct (index <? App.MAX_SIBLINGS) eqn:Hlt.
    + pose proof Hlt as Hlt'. apply Nat.ltb_lt in Hlt'.
      replace (App.MAX_SIBLINGS - index) with (S (App.MAX_SIBLINGS - S index))
        by lia.
      rewrite firstn_cons. cbn [map App.eachBelowLimit]. rewrite Hlt.
      apply IH. unfold App.itemCallback.
      rewrite (locations_length rs rs' Hrs).
      destruct (App.MAX_RESULTS <=? List.length rs'); [exact Hrs|].
      now apply search_clipBelow.
    + apply Nat.ltb_ge in Hlt.
      replace (App.MAX_SIBLINGS - index) with 0 by lia. exact Hrs.
Qed.

Lemma eachEntry_clipped lowerQuery currentPath depth l :
  Forall (fun e => searchClipped lowerQuery (snd e)) l ->
  forall index rs rs',
    map location rs = map location rs' ->
    map location
      (App.eachBelowLimit (App.entryCallback lowerQuery currentPath depth)
         l index rs)
    = map location
        (App.eachBelowLimit (App.entryCallback lowerQuery currentPath depth)
           (map (fun e => (fst e, clipBelow depth (snd e)))
              (firstn (App.MAX_SIBLINGS - index) l))
           index rs').
Proof.
  induction 1 as [|[k v] l Hentry _ IH]; intros index rs rs' Hrs.
  - now rewrite firstn_nil.
  - cbn [App.eachBelowLimit]. destruct (index <? App.MAX_SIBLINGS) eqn:Hlt.
    + pose proof Hlt as Hlt'. apply Nat.ltb_lt in Hlt'.
      replace (App.MAX_SIBLINGS - index) with (S (App.MAX_SIBLINGS - S index))
        by lia.
      rewrite firstn_cons. cbn [map App.eachBelowLimit fst snd]. rewrite Hlt.
      apply IH. unfold App.entryCallback.
      rewrite (locations_length rs rs' Hrs).
      destruct (App.MAX_RESULTS <=? List.length rs'); [exact Hrs|].
      cbv zeta. apply search_clipBelow; [exact Hentry|].
      destruct (JS.includes (JS.toLowerCase k) lowerQuery); [|exact Hrs].
      rewrite !map_app, Hrs. reflexivity.
    + apply Nat.ltb_ge in Hlt.
      replace (App.MAX_SIBLINGS - index) with 0 by lia. exact Hrs.
Qed.

Lemma search_clipped lowerQuery : forall obj, searchClipped lowerQuery obj.
Proof.
  induction obj as [|b|repr|s|items IH|entries IH] using JsonValue_induction;
    intros currentPath depth rs rs' Hrs;
    rewrite clip_unfold; cbv zeta; rewrite !search_unfold;
    rewrite (locations_guard depth rs rs' Hrs);
    destruct (searchGuard depth rs'); try exact Hrs.
  - destruct (JS.includes _ _); [|exact Hrs]. now rewrite !map_app, Hrs.
  - destruct (JS.includes _ _); [|exact Hrs]. now rewrite !map_app, Hrs.
  - destruct (JS.includes _ _); [|exact Hrs]. now rewrite !map_app, Hrs.
  - rewrite (eachItem_clipped lowerQuery currentPath depth items IH 0 rs rs' Hrs).
    rewrite Nat.sub_0_r. reflexivity.
  - rewrite (eachEntry_clipped lowerQuery currentPath depth entries IH 0 rs rs' Hrs).
    rewrite Nat.sub_0_r. reflexivity.
Qed.

Lemma falsy_clip levels v : falsy (clip levels v) = falsy v.
Proof. rewrite clip_unfold. destruct v; reflexivity. Qed.

Lemma searchInData_clip doc query :
  map location (App.searchInData doc query [])
  = map location (App.searchInData (clip App.MAX_DEPTH doc) query []).
Proof.
  unfold App.searchInData. rewrite falsy_clip.
  destruct (negb (JS.truthy (JS.trim query)) || falsy doc); [reflexivity|].
  cbv zeta. rewrite !slice_from_0, <- !firstn_map. f_equal.
  exact (search_clipped (JS.toLowerCase query) doc [] 0 [] [] eq_refl).
Qed.

(** *** The limits hold during the traversal *)

Lemma within_nothing n depth (results : list App.SearchResult) :
  exists new,
    results = results ++ new
    /\ (List.length results <= App.MAX_RESULTS ->
        List.length (results ++ new) <= App.MAX_RESULTS)
    /\ Forall (withinDepth n depth) new.
Proof.
  exists []. rewrite app_nil_r. repeat split; auto.
Qed.

Lemma within_step n depth (results new1 : list App.SearchResult)
    (f : list App.SearchResult -> list App.SearchResult) :
  (List.length results <= App.MAX_RESULTS ->
   List.length (results ++ new1) <= App.MAX_RESULTS) ->
  Forall (withinDepth n depth) new1 ->
  (exists new2,
      f (results ++ new1) = (results ++ new1) ++ new2
      /\ (List.length (results ++ new1) <= App.MAX_RESULTS ->
          List.length ((results ++ new1) ++ new2) <= App.MAX_RESULTS)
      /\ Forall (withinDepth n depth) new2) ->
  exists new,
    f (results ++ new1) = results ++ new
    /\ (List.length results <= App.MAX_RESULTS ->
        List.length (results ++ new) <= App.MAX_RESULTS)
    /\ Forall (withinDepth n depth) new.
Proof.
  intros Hcap1 Hnew1 (new2 & Hf & Hcap2 & Hnew2).
  exists (new1 ++ new2). rewrite Hf, app_assoc.
  split; [reflexivity|]. split; [auto|].
  apply Forall_app. now split.
Qed.

Lemma withinDepth_child n depth m :
  withinDepth (S n) (S depth) m -> withinDepth n depth m.
Proof. unfold withinDepth. lia. Qed.

Lemma eachItem_within lowerQuery currentPath depth l :
  depth <= App.MAX_DEPTH ->
  Forall (searchWithin lowerQuery) l ->
  forall index results,
  exists new,
    App.eachBelowLimit (App.itemCallback lowerQuery currentPath depth)
      l index results = results ++ new
    /\ (List.length results <= App.MAX_RESULTS ->
        List.length (results ++ new) <= App.MAX_RESULTS)
    /\ Forall (withinDepth (List.length currentPath) depth) new.
Proof.
  intros Hdepth. induction 1 as [|item l Hitem _ IH]; intros index results.
  - apply within_nothing.
  - cbn [App.eachBelowLimit].
    destruct (index <? App.MAX_SIBLINGS); [|apply within_nothing].
    assert (exists new1,
               App.itemCallback lowerQuery currentPath depth item index results
               = results ++ new1
               /\ (List.length results <= App.MAX_RESULTS ->
                   List.length (results ++ new1) <= App.MAX_RESULTS)
               /\ Forall (withinDepth (List.length currentPath) depth) new1)
      as (new1 & -> & Hcap1 & Hnew1).
    { unfold App.itemCallback.
      destruct (App.MAX_RESULTS <=? List.length results);
        [apply within_nothing|].
      destruct (Hitem (currentPath ++ [indexName index]) (S depth) results)
        as (new & Hs & Hcap & Hnew).
      exists new. split; [exact Hs|]. split; [exact Hcap|].
      eapply Forall_impl; [|exact Hnew]. intros m Hm.
      apply withinDepth_child.
      now rewrite length_app, Nat.add_comm in Hm. }
    apply (within_step _ _ _ _
             (App.eachBelowLimit (App.itemCallback lowerQuery currentPath depth)
                l (S index))); auto.
Qed.

Lemma eachEntry_within lowerQuery currentPath depth l :
  depth <= App.MAX_DEPTH ->
  Forall (fun e => searchWithin lowerQuery (snd e)) l ->
  forall index results,
  exists new,
    App.eachBelowLimit (App.entryCallback lowerQuery currentPath depth)
      l index results = results ++ new
    /\ (List.length results <= App.MAX_RESULTS ->
        List.length (results ++ new) <= App.MAX_RESULTS)
    /\ Forall (withinDepth (List.length currentPath) depth) new.
Proof.
  intros Hdepth. induction 1 as [|[k v] l Hentry _ IH]; intros index results.
  - apply within_nothing.
  - cbn [App.eachBelowLimit].
    destruct (index <? App.MAX_SIBLINGS); [|apply within_nothing].
    assert (exists new1,
               App.entryCallback lowerQuery currentPath depth (k, v) index results
               = results ++ new1
               /\ (List.length results <= App.MAX_RESULTS ->
                   List.length (results ++ new1) <= App.MAX_RESULTS)
               /\ Forall (withinDepth (List.length currentPath) depth) new1)
      as (new1 & -> & Hcap1 & Hnew1).
    { unfold App.entryCallback.
      destruct (App.MAX_RESULTS <=? List.length results) eqn:Hfull;
        [apply within_nothing|].
      apply Nat.leb_gt in Hfull. cbv zeta. simpl in Hentry.
      assert (forall (rs new : list App.SearchResult),
                 Forall (withinDepth (List.length (currentPath ++ [k]))
                           (S depth)) new ->
                 Forall (withinDepth (List.length currentPath) depth) new)
        as Hlift.
      { intros _ new Hnew. eapply Forall_impl; [|exact Hnew]. intros m Hm.
        apply withinDepth_child.
        now rewrite length_app, Nat.add_comm in Hm. }
      destruct (JS.includes (JS.toLowerCase k) lowerQuery).
      - destruct (Hentry (currentPath ++ [k]) (S depth)
                    (results ++ [App.keyResult (currentPath ++ [k]) k v]))
          as (new & -> & Hcap & Hnew).
        exists (App.keyResult (currentPath ++ [k]) k v :: new).
        rewrite <- app_assoc. split; [reflexivity|]. split.
        + intros _. rewrite <- app_assoc in Hcap. apply Hcap.
          rewrite length_app. simpl. lia.
        + constructor; [|now apply (Hlift results)].
          unfold withinDepth. simpl. rewrite length_app. simpl. lia.
      - destruct (Hentry (currentPath ++ [k]) (S depth) results)
          as (new & -> & Hcap & Hnew).
        exists new. split; [reflexivity|]. split; [exact Hcap|].
        now apply (Hlift results). }
    apply (within_step _ _ _ _
             (App.eachBelowLimit (App.entryCallback lowerQuery currentPath depth)
                l (S index))); auto.
Qed.

Lemma search_within lowerQuery : forall obj, searchWithin lowerQuery obj.
Proof.
  assert (forall obj currentPath depth (results : list App.SearchResult),
             searchGuard depth results = false ->
             exists new,
               (if JS.includes (JS.toLowerCase (String_ obj)) lowerQuery
                then results ++ [App.valueResult currentPath obj]
                else results) = results ++ new
               /\ (List.length results <= App.MAX_RESULTS ->
                   List.length (results ++ new) <= App.MAX_RESULTS)
               /\ Forall (withinDepth (List.length currentPath) depth) new)
    as Hprim.
  { intros obj currentPath depth results Hguard.
    apply searchGuard_false in Hguard as [Hroom Hdepth].
    destruct (JS.includes _ _); [|apply within_nothing].
    eexists. split; [reflexivity|]. split.
    - intros _. rewrite length_app. simpl. lia.
    - constructor; [|constructor]. unfold withinDepth. simpl. lia. }
  induction obj as [|b|repr|s|items IH|entries IH] using JsonValue_induction;
    intros currentPath depth results; rewrite search_unfold;
    destruct (searchGuard depth results) eqn:Hguard;
    try apply within_nothing; try (now apply Hprim).
  - apply eachItem_within; [|exact IH].
    now apply searchGuard_false in Hguard.
  - apply eachEntry_within; [|exact IH].
    now apply searchGuard_false in Hguard.
Qed.

(** C7: the search traversal terminates within limits that do not depend
    on the document: it amounts to at most [callBound 51] invocations of
    [search]; what it returns is decided by the first 1000 entries of each
    container down to depth 50 (the locations of its matches are those
    found in the clipped document), a value match lies at depth 50 at
    most and a key match is a key of an object at depth 50 at most; an
    invocation that finds 1000 results collected, or is past depth 50,
    returns at once, and the results never grow beyond 1000 on the way. *)
Theorem search_traversal_bounded :
  App.MAX_DEPTH = 50 /\ App.MAX_SIBLINGS = 1000 /\ App.MAX_RESULTS = 1000
  /\ (forall (A : Type)
        (callback : A -> nat -> list App.SearchResult -> list App.SearchResult)
        (l : list A) (results : list App.SearchResult),
        App.eachBelowLimit callback l 0 results
        = JS.forEach callback (JS.slice 0 1000 l) results)
  /\ forall (doc : JsonValue) (query : string),
       let lowerQuery := JS.toLowerCase query in
       searchCalls lowerQuery doc [] 0 [] <= callBound (App.MAX_DEPTH + 1)
       /\ map location (App.searchInData doc query [])
          = map location (App.searchInData (clip App.MAX_DEPTH doc) query [])
       /\ (forall m : App.SearchResult,
              In m (App.searchInData doc query []) ->
              List.length (App.path m)
              <= App.MAX_DEPTH
                 + match App.type m with App.key_ => 1 | App.value_ => 0 end)
       /\ (forall obj currentPath depth results,
              App.MAX_RESULTS <= List.length results \/ App.MAX_DEPTH < depth ->
              App.search lowerQuery obj currentPath depth results = results
              /\ searchCalls lowerQuery obj currentPath depth results = 1)
       /\ (forall obj currentPath depth results,
              List.length results <= App.MAX_RESULTS ->
              List.length (App.search lowerQuery obj currentPath depth results)
              <= App.MAX_RESULTS).
Proof.
  split; [reflexivity|]. split; [reflexivity|]. split; [reflexivity|].
  split; [intros A; apply eachBelowLimit_forEach|].
  intros doc query lowerQuery.
  split; [apply (searchCalls_bound lowerQuery doc [] 0 [])|].
  split; [apply searchInData_clip|].
  split; [|split].
  - intros m Hin. unfold App.searchInData in Hin.
    destruct (negb (JS.truthy (JS.trim query)) || falsy doc); [destruct Hin|].
    cbv zeta in Hin. rewrite slice_from_0 in Hin. apply In_firstn in Hin.
    destruct (search_within (JS.toLowerCase query) doc [] 0 [])
      as (new & Hsearch & _ & Hnew).
    rewrite Hsearch in Hin. simpl in Hin.
    rewrite Forall_forall in Hnew. specialize (Hnew m Hin).
    unfold withinDepth in Hnew. cbn [List.length] in Hnew.
    destruct (App.type m); lia.
  - intros obj currentPath depth results Hstop.
    assert (searchGuard depth results = true) as Hguard.
    { destruct Hstop; [now apply searchGuard_full | now apply searchGuard_deep]. }
    split; [now apply search_guarded|].
    now rewrite searchCalls_unfold, Hguard.
  - intros obj currentPath depth results Hcap.
    destruct (search_within lowerQuery obj currentPath depth results)
      as (new & -> & Hnew & _).
    now apply Hnew.
Qed.

Lemma search_traversal_bounded_witness :
  (App.MAX_RESULTS <= List.length (@nil App.SearchResult) \/ App.MAX_DEPTH < 51)
  /\ App.search (JS.toLowerCase "42") answerDoc [] 51 [] = []
  /\ searchCalls (JS.toLowerCase "42") answerDoc [] 51 [] = 1
  /\ List.length
       (App.search (JS.toLowerCase "42") answerDoc [] 0 []) <= App.MAX_RESULTS.
Proof.
  assert (App.MAX_DEPTH < 51) as Hdeep by (unfold App.MAX_DEPTH; lia).
  destruct search_traversal_bounded as (_ & _ & _ & _ & Hdoc).
  destruct (Hdoc answerDoc "42") as (_ & _ & _ & Hstop & Hcap).
  split; [now right|].
  split; [|split].
  - apply (Hstop answerDoc [] 51 []). now right.
  - apply (Hstop answerDoc [] 51 []). now right.
  - apply (Hcap answerDoc [] 0 []). simpl. lia.
Defined.

(** * Further properties *)

(** ** The search returns the first matches of the traversal *)

Lemma allMatches_unfold lowerQuery obj currentPath depth :
  allMatches lowerQuery obj currentPath depth
  = if App.MAX_DEPTH <? depth then []
    else
      match obj with
      | JNull => []
      | JArray items =>
          concatBelowLimit
            (fun item index =>
               allMatches lowerQuery item (currentPath ++ [indexName index])
                 (S depth))
            items 0
      | JObject entries =>
          concatBelowLimit
            (fun entry index =>
               let newPath := currentPath ++ [fst entry] in
               (if JS.includes (JS.toLowerCase (fst entry)) lowerQuery
                then [App.keyResult newPath (fst entry) (snd entry)]
                else [])
               ++ allMatches lowerQuery (snd entry) newPath (S depth))
            entries 0
      | _ =>
          if JS.includes (JS.toLowerCase (String_ obj)) lowerQuery
          then [App.valueResult currentPath obj]
          else []
      end.
Proof. destruct obj; reflexivity. Qed.

Lemma firstn_room {A} (limit : nat) (rs found more : list A) :
  (rs ++ firstn (limit - List.length rs) found)
    ++ firstn (limit - List.length (rs ++ firstn (limit - List.length rs) found))
         more
  = rs ++ firstn (limit - List.length rs) (found ++ more).
Proof.
  rewrite <- app_assoc. f_equal.
  rewrite firstn_app, length_app, length_firstn. f_equal. f_equal.
  lia.
Qed.

Lemma eachBelowLimit_refines {A}
    (callback : A -> nat -> list App.SearchResult -> list App.SearchResult)
    (matchesOf : A -> nat -> list App.SearchResult) (l : list A) :
  Forall (fun x => forall index rs,
            callback x index rs
            = rs ++ firstn (App.MAX_RESULTS - List.length rs)
                      (matchesOf x index)) l ->
  forall index rs,
    App.eachBelowLimit callback l index rs
    = rs ++ firstn (App.MAX_RESULTS - List.length rs)
              (concatBelowLimit matchesOf l index).
Proof.
  induction 1 as [|x l Hx _ IH]; intros index rs.
  - simpl. now rewrite firstn_nil, app_nil_r.
  - cbn [App.eachBelowLimit concatBelowLimit].
    destruct (index <? App.MAX_SIBLINGS).
    + rewrite IH, Hx. apply firstn_room.
    + now rewrite firstn_nil, app_nil_r.
Qed.

Lemma search_refines lowerQuery : forall obj currentPath depth rs,
  App.search lowerQuery obj currentPath depth rs
  = rs ++ firstn (App.MAX_RESULTS - List.length rs)
            (allMatches lowerQuery obj currentPath depth).
Proof.
  assert (forall (rs : list App.SearchResult) found,
             App.MAX_RESULTS <= List.length rs ->
             rs = rs ++ firstn (App.MAX_RESULTS - List.length rs) found)
    as Hfull.
  { intros rs found Hle.
    replace (App.MAX_RESULTS - List.length rs) with 0 by lia.
    now rewrite app_nil_r. }
  assert (forall (rs : list App.SearchResult) (found : bool) m,
             List.length rs < App.MAX_RESULTS ->
             (if found then rs ++ [m] else rs)
             = rs ++ firstn (App.MAX_RESULTS - List.length rs)
                       (if found then [m] else [])) as Hone.
  { intros rs found m Hlt.
    destruct (App.MAX_RESULTS - List.length rs) as [|n] eqn:Hroom; [lia|].
    destruct found; simpl; [now rewrite firstn_nil | now rewrite app_nil_r]. }
  induction obj as [|b|repr|s|items IH|entries IH] using JsonValue_induction;
    intros currentPath depth rs; rewrite search_unfold, allMatches_unfold;
    unfold searchGuard;
    destruct (App.MAX_RESULTS <=? List.length rs) eqn:Hroom;
    try (apply Nat.leb_le in Hroom; cbn [orb]; now apply Hfull);
    apply Nat.leb_gt in Hroom; cbn [orb];
    destruct (App.MAX_DEPTH <? depth);
    try (now rewrite firstn_nil, app_nil_r);
    try (now apply Hone).
  - apply eachBelowLimit_refines.
    eapply Forall_impl; [|exact IH]. intros item Hitem index rs'.
    unfold App.itemCallback.
    destruct (App.MAX_RESULTS <=? List.length rs') eqn:Hroom';
      [apply Nat.leb_le in Hroom'; now apply Hfull | apply Hitem].
  - apply eachBelowLimit_refines.
    eapply Forall_impl; [|exact IH]. intros [k v] Hentry index rs'.
    unfold App.entryCallback. cbn [fst snd] in *.
    destruct (App.MAX_RESULTS <=? List.length rs') eqn:Hroom';
      [apply Nat.leb_le in Hroom'; now apply Hfull|].
    apply Nat.leb_gt in Hroom'. cbv zeta. rewrite Hentry.
    rewrite (Hone rs' (JS.includes (JS.toLowerCase k) lowerQuery)
               (App.keyResult (currentPath ++ [k]) k v) Hroom').
    apply firstn_room.
Qed.

Lemma truthy_trim query :
  JS.truthy (JS.trim query) = negb (whitespaceOnly query).
Proof.
  destruct (whitespaceOnly query) eqn:Hws.
  - apply trim_empty_iff in Hws. now rewrite Hws.
  - destruct (JS.trim query) eqn:Htrim; [|reflexivity].
    apply trim_empty_iff in Htrim. congruence.
Qed.

Lemma searchInData_allMatches doc query :
  App.searchInData doc query []
  = if whitespaceOnly query || falsy doc then []
    else firstn 1000 (allMatches (JS.toLowerCase query) doc [] 0).
Proof.
  unfold App.searchInData.
  rewrite truthy_trim, negb_involutive.
  destruct (whitespaceOnly query || falsy doc); [reflexivity|].
  cbv zeta. rewrite slice_from_0, search_refines. cbn [List.length app].
  rewrite Nat.sub_0_r. apply firstn_firstn.
Qed.

(** X1: what [searchInData] returns is the first 1000 matches of the
    pre-order traversal [allMatches] (keys before the values under them,
    array items by index, down to depth 50 and 1000 entries per
    container), and nothing for a blank query or a falsy document: the
    limit on the results only ever cuts the end of that sequence. *)
Theorem searchInData_first_matches :
  forall (doc : JsonValue) (query : string),
    App.searchInData doc query []
    = if whitespaceOnly query || falsy doc then []
      else firstn 1000 (allMatches (JS.toLowerCase query) doc [] 0).
Proof. exact searchInData_allMatches. Qed.

(** ** The search misses nothing within its limits *)

Lemma nth_error_combine_seq {A} (l : list A) : forall start i,
  nth_error (combine (seq start (List.length l)) l) i
  = option_map (fun x => (start + i, x)) (nth_error l i).
Proof.
  induction l as [|x l IH]; intros start [|i]; simpl; try reflexivity.
  - now rewrite Nat.add_0_r.
  - rewrite IH. destruct (nth_error l i); simpl; [|reflexivity].
    do 2 f_equal. lia.
Qed.

Lemma children_array_nth items i seg child :
  nth_error (children (JArray items)) i = Some (seg, child) ->
  seg = indexName i /\ nth_error items i = Some child.
Proof.
  unfold children, JS.forEach. rewrite forEachFrom_push. cbn [app].
  rewrite nth_error_map, nth_error_combine_seq.
  destruct (nth_error items i) as [x|]; simpl; [|discriminate].
  intros [= <- <-]. now split.
Qed.

Lemma concatBelowLimit_In {A}
    (matchesOf : A -> nat -> list App.SearchResult) (l : list A) m :
  forall index i x,
    nth_error l i = Some x ->
    index + i < App.MAX_SIBLINGS ->
    In m (matchesOf x (index + i)) ->
    In m (concatBelowLimit matchesOf l index).
Proof.
  induction l as [|y l IH]; intros index [|i] x; simpl; try discriminate.
  - intros [= ->] Hlt Hin. rewrite Nat.add_0_r in Hlt, Hin.
    apply Nat.ltb_lt in Hlt. rewrite Hlt. apply in_or_app. now left.
  - intros Hnth Hlt Hin.
    assert ((index <? App.MAX_SIBLINGS) = true) as ->
      by (apply Nat.ltb_lt; lia).
    apply in_or_app. right. apply (IH (S index) i x Hnth).
    + lia.
    + now replace (S index + i) with (index + S i) by lia.
Qed.

(** A match below a value that the traversal reaches is a match of the
    traversal. *)
Lemma allMatches_reaches lowerQuery m obj segs w :
  reaches obj segs w ->
  forall currentPath depth,
    depth + List.length segs <= App.MAX_DEPTH ->
    In m (allMatches lowerQuery w (currentPath ++ segs)
            (depth + List.length segs)) ->
    In m (allMatches lowerQuery obj currentPath depth).
Proof.
  induction 1 as [v | v i seg child rest w Hi Hnth Hreach IH];
    intros currentPath depth Hdepth Hin.
  - now rewrite app_nil_r, Nat.add_0_r in Hin.
  - cbn [List.length] in Hdepth, Hin.
    assert (In m (allMatches lowerQuery child (currentPath ++ [seg])
                    (S depth))) as Hchild.
    { apply IH; [lia|].
      rewrite <- app_assoc. cbn [app].
      now replace (S depth + List.length rest)
        with (depth + S (List.length rest)) by lia. }
    rewrite allMatches_unfold.
    assert ((App.MAX_DEPTH <? depth) = false) as ->
    by (apply Nat.ltb_ge; lia).
    destruct v as [|b|repr|s|items|entries];
      try (destruct i; discriminate Hnth).
    + apply children_array_nth in Hnth as [-> Hitem].
      apply (concatBelowLimit_In _ items m 0 i child Hitem); [exact Hi|].
      exact Hchild.
    + cbn [children] in Hnth.
      apply (concatBelowLimit_In _ entries m 0 i (seg, child) Hnth);
        [exact Hi|].
      cbn [fst snd]. apply in_or_app. now right.
Qed.

Lemma allMatches_value lowerQuery v currentPath depth :
  depth <= App.MAX_DEPTH ->
  isContainer v = false ->
  v <> JNull ->
  JS.includes (JS.toLowerCase (String_ v)) lowerQuery = true ->
  In (App.valueResult currentPath v)
    (allMatches lowerQuery v currentPath depth).
Proof.
  intros Hdepth Hprim Hnull Hinc. rewrite allMatches_unfold.
  assert ((App.MAX_DEPTH <? depth) = false) as ->
    by (apply Nat.ltb_ge; lia).
  destruct v; try discriminate; try contradiction; rewrite Hinc; now left.
Qed.

Lemma allMatches_key lowerQuery entries i k v currentPath depth :
  depth <= App.MAX_DEPTH ->
  i < App.MAX_SIBLINGS ->
  nth_error entries i = Some (k, v) ->
  JS.includes (JS.toLowerCase k) lowerQuery = true ->
  In (App.keyResult (currentPath ++ [k]) k v)
    (allMatches lowerQuery (JObject entries) currentPath depth).
Proof.
  intros Hdepth Hi Hnth Hinc. rewrite allMatches_unfold.
  assert ((App.MAX_DEPTH <? depth) = false) as ->
    by (apply Nat.ltb_ge; lia).
  apply (concatBelowLimit_In _ entries _ 0 i (k, v) Hnth); [exact Hi|].
  cbn [fst snd]. rewrite Hinc. now left.
Qed.

Lemma firstn_short {A} n (l : list A) :
  List.length (firstn n l) < n -> firstn n l = l.
Proof.
  rewrite length_firstn. intros H. apply firstn_all2. lia.
Qed.

(** X2: when the search returns fewer than 1000 results for a query that
    is not blank and a document that is not falsy, it has missed nothing
    within its limits: every primitive other than [null] that lies at
    depth 50 at most, behind entries among the first 1000 of their
    containers, and whose string form contains the query is returned as a
    value match at its path, and every key of such an object that
    contains the query is returned as a key match. *)
Theorem search_complete_within_limits :
  forall (doc : JsonValue) (query : string),
    whitespaceOnly query = false ->
    falsy doc = false ->
    List.length (App.searchInData doc query []) < 1000 ->
    (forall segs v,
        reaches doc segs v ->
        List.length segs <= 50 ->
        isContainer v = false ->
        v <> JNull ->
        containsQuery (String_ v) query ->
        In (App.valueResult segs v) (App.searchInData doc query []))
    /\ (forall parent entries i k v,
           reaches doc parent (JObject entries) ->
           List.length parent <= 50 ->
           i < 1000 ->
           nth_error entries i = Some (k, v) ->
           containsQuery k query ->
           In (App.keyResult (parent ++ [k]) k v)
             (App.searchInData doc query [])).
Proof.
  intros doc query Hquery Hdoc Hshort.
  rewrite searchInData_allMatches, Hquery, Hdoc in Hshort |- *.
  cbn [orb] in Hshort |- *.
  rewrite (firstn_short _ _ Hshort). split.
  - intros segs v Hreach Hlen Hprim Hnull Hinc.
    apply includes_spec in Hinc.
    apply (allMatches_reaches _ _ doc segs v Hreach [] 0); [exact Hlen|].
    now apply allMatches_value.
  - intros parent entries i k v Hreach Hlen Hi Hnth Hinc.
    apply includes_spec in Hinc.
    apply (allMatches_reaches _ _ doc parent (JObject entries) Hreach [] 0);
      [exact Hlen|].
    now apply (allMatches_key _ entries i).
Qed.

Lemma search_complete_within_limits_witness :
  In (App.valueResult ["y"] (JString "value42"))
    (App.searchInData answerDoc "42" [])
  /\ In (App.keyResult ([] ++ ["x"]) "x" (JNumber "42"))
       (App.searchInData answerDoc "X" []).
Proof.
  split.
  - refine (proj1 (search_complete_within_limits answerDoc "42" eq_refl eq_refl _)
              ["y"] (JString "value42") _ _ eq_refl _ _).
    + vm_compute. lia.
    + apply (reaches_child _ 1 "y" (JString "value42")).
      * unfold App.MAX_SIBLINGS. lia.
      * reflexivity.
      * constructor.
    + simpl. lia.
    + discriminate.
    + exists "value", "". reflexivity.
  - refine (proj2 (search_complete_within_limits answerDoc "X" eq_refl eq_refl _)
              [] [("x", JNumber "42"); ("y", JString "value42")] 0 "x"
              (JNumber "42") _ _ _ eq_refl _).
    + vm_compute. lia.
    + constructor.
    + simpl. lia.
    + lia.
    + exists "", "". reflexivity.
Defined.

(** ** Which documents can force an expansion *)

Lemma string_app_assoc (a b c : string) :
  ((a ++ b) ++ c)%string = (a ++ b ++ c)%string.
Proof. induction a as [|x a IH]; simpl; [reflexivity | now rewrite IH]. Qed.

Lemma startsWith_before_dot p : forall k t,
  noDot p = true ->
  JS.startsWith (k ++ String "." t) p = true ->
  JS.startsWith k p = true.
Proof.
  unfold JS.startsWith.
  induction p as [|c p IH]; intros k t Hdot H; [now destruct k|].
  simpl in Hdot. apply andb_true_iff in Hdot as [Hc Hp].
  destruct k as [|d k]; simpl in H |- *.
  - destruct (ascii_dec c ".") as [->|]; [discriminate Hc | discriminate H].
  - destruct (ascii_dec c d); [now apply (IH k t) | discriminate H].
Qed.

Lemma join_cons sep n rest :
  exists tail,
    JS.join sep (n :: rest) = (n ++ tail)%string
    /\ (tail = "" \/ exists t, tail = (sep ++ t)%string).
Proof.
  destruct rest as [|r rest]; simpl.
  - exists "". split; [|now left].
    induction n as [|c n IH]; simpl; [reflexivity | now rewrite <- IH].
  - eexists. split; [reflexivity|]. right. eauto.
Qed.

Lemma nodeAt_searchResults segs : forall p q,
  nodeAt p segs = Some q ->
  TreeNode.searchResults q = TreeNode.searchResults p
  /\ TreeNode.searchQuery q = TreeNode.searchQuery p
  /\ TreeNode.isLargeFile q = TreeNode.isLargeFile p.
Proof.
  induction segs as [|seg rest IH]; intros p q; simpl.
  - intros [= <-]. auto.
  - destruct (find _ _) as [[n d]|]; [|discriminate].
    intros H. apply IH in H. exact H.
Qed.

Lemma searchInData_sound doc query m :
  In m (App.searchInData doc query []) -> soundMatch doc query m.
Proof.
  unfold App.searchInData.
  destruct (negb (JS.truthy (JS.trim query)) || falsy doc); [intros []|].
  cbv zeta. rewrite slice_from_0. intros Hin. apply In_firstn in Hin.
  destruct (search_sound (JS.toLowerCase query) doc [] 0 [])
    as (new & Hsearch & Hnew).
  rewrite Hsearch in Hin. simpl in Hin.
  rewrite Forall_forall in Hnew. now apply soundBelow_root, Hnew.
Qed.

(** The path string of a result is empty (a match of the document itself)
    or starts with the name of a child of the document, followed by
    nothing or by a separator. *)
Lemma result_pathString_shape doc query m :
  In m (App.searchInData doc query []) ->
  App.pathString m = ""
  \/ exists n child tail,
       In (n, child) (children doc)
       /\ App.pathString m = (n ++ tail)%string
       /\ (tail = "" \/ exists t, tail = String "." t).
Proof.
  intros Hin. apply searchInData_sound in Hin as [Hstr Hm].
  assert (App.path m = []
          \/ exists n child rest,
               In (n, child) (children doc) /\ App.path m = n :: rest)
    as [Hpath | (n & child & rest & Hchild & Hpath)].
  { destruct (App.type m).
    - destruct Hm as (parent & entries & k & Hpath & _ & Hres & Hentry & _).
      right. inversion Hres; subst.
      + exists k, (App.value m), []. split; [exact Hentry | exact Hpath].
      + eexists _, _, _. split; [eassumption | exact Hpath].
    - destruct Hm as (_ & Hres & _).
      inversion Hres; subst; [now left|].
      right. eexists _, _, _. split; [eassumption | reflexivity]. }
  - left. now rewrite Hstr, Hpath.
  - right. rewrite Hstr, Hpath.
    destruct (join_cons "." n rest) as (tail & Heq & Htail).
    exists n, child, tail. repeat split; assumption.
Qed.

(** A node that reports a search match has found, among the stored
    results, one whose path string starts with the name of the root. *)
Lemma search_match_result doc fileSize isJsonlFile query results segs b :
  nodeAt (rootProps doc fileSize isJsonlFile query results) segs = Some b ->
  TreeNode.isSearchMatch b = true ->
  exists r,
    In r results
    /\ JS.startsWith (App.pathString r) (rootName isJsonlFile) = true.
Proof.
  intros Hnode Hmatch.
  unfold TreeNode.isSearchMatch in Hmatch.
  apply existsb_exists in Hmatch as (r & Hr & Hcmp).
  rewrite (proj1 (nodeAt_searchResults _ _ _ Hnode)) in Hr.
  cbn [rootProps TreeNode.searchResults] in Hr.
  exists r. split; [exact Hr|].
  (* the path string of the node starts with the name of the root *)
  assert (exists tail, TreeNode.pathString b
                       = (rootName isJsonlFile ++ tail)%string)
    as [tail Hps].
  { unfold TreeNode.pathString. rewrite (nodeAt_currentPath _ _ _ Hnode).
    cbn [rootProps TreeNode.currentPath TreeNode.path TreeNode.name app].
    destruct (join_cons "." (rootName isJsonlFile) segs) as (tail & Heq & _).
    exists tail. exact Heq. }
  apply startsWith_spec. apply orb_true_iff in Hcmp as [Heq | Hpre].
  - apply String.eqb_eq in Heq. exists tail. now rewrite Heq.
  - apply startsWith_spec in Hpre as [after Hafter].
    exists (tail ++ "." ++ after)%string.
    now rewrite Hafter, Hps, !string_app_assoc.
Qed.

(** The results that the search effect computed from [resultsDoc] make
    no node match, whatever document the tree shows, when no name at the
    top of [resultsDoc] starts with the name of the root. *)
Lemma no_search_match doc resultsDoc fileSize isJsonlFile query resultsQuery
    segs b :
  Forall (fun e => JS.startsWith (fst e) (rootName isJsonlFile) = false)
    (children resultsDoc) ->
  nodeAt (rootProps doc fileSize isJsonlFile query
            (App.searchEffect resultsDoc resultsQuery)) segs = Some b ->
  TreeNode.isSearchMatch b = false.
Proof.
  intros Hnames Hnode.
  destruct (TreeNode.isSearchMatch b) eqn:Hmatch; [exfalso|reflexivity].
  destruct (search_match_result _ _ _ _ _ _ _ Hnode Hmatch)
    as (r & Hr & Hstarts).
  assert (In r (App.searchInData resultsDoc resultsQuery [])) as Hin.
  { unfold App.searchEffect in Hr. destruct (_ && _); [exact Hr | destruct Hr]. }
  clear Hr.
  assert (noDot (rootName isJsonlFile) = true) as Hdot
    by (destruct isJsonlFile; reflexivity).
  destruct (result_pathString_shape _ _ _ Hin)
    as [Hempty | (n & child & tail' & Hchild & Hshape & Htail)].
  - rewrite Hempty in Hstarts. destruct isJsonlFile; discriminate Hstarts.
  - rewrite Forall_forall in Hnames. specialize (Hnames _ Hchild).
    cbn [fst] in Hnames. rewrite Hshape in Hstarts.
    destruct Htail as [-> | [t ->]].
    + assert ((n ++ "")%string = n) as Hn.
      { clear. induction n as [|c n IH]; simpl; [reflexivity | now rewrite IH]. }
      rewrite Hn in Hstarts. congruence.
    + apply startsWith_before_dot in Hstarts; [congruence | exact Hdot].
Qed.

Lemma array_children_names items :
  forall isJsonlFile,
    Forall (fun e => JS.startsWith (fst e) (rootName isJsonlFile) = false)
      (children (JArray items)).
Proof.
  intros isJsonlFile. apply Forall_forall. intros [n d] Hin.
  unfold children, JS.forEach in Hin. rewrite forEachFrom_push in Hin.
  cbn [app] in Hin. apply in_map_iff in Hin as ([i x] & [= <- <-] & _).
  destruct isJsonlFile; reflexivity.
Qed.

(** X3: whatever [searchResults] holds, a node of the tree reports a search
    match only if the path string of one of the stored results starts with
    the name of the root node ([root], or [jsonl_records] for a JSONL
    file).  The results that the search effect computed from a document,
    the one on show or an earlier one and whatever the query was, make no
    node match and leave the auto-expand effect without any change of
    state when no key at the top of that document starts with the name of
    the root; that is so of every array, hence of every JSONL file.  The
    results left over from a document that has a key [root] do make the
    root node of an array loaded afterwards match, and expand it. *)
Theorem forced_expansion_needs_root_named_key :
  (forall (doc : JsonValue) (fileSize : N) (isJsonlFile : bool)
      (query : string) (results : list App.SearchResult)
      (segs : list string) (b : TreeNode.Props),
      nodeAt (rootProps doc fileSize isJsonlFile query results) segs = Some b ->
      TreeNode.isSearchMatch b = true ->
      exists r,
        In r results
        /\ JS.startsWith (App.pathString r) (rootName isJsonlFile) = true)
  /\ (forall (doc resultsDoc : JsonValue) (fileSize : N) (isJsonlFile : bool)
        (query resultsQuery : string) (segs : list string)
        (b : TreeNode.Props),
        Forall (fun e => JS.startsWith (fst e) (rootName isJsonlFile) = false)
          (children resultsDoc) ->
        nodeAt (rootProps doc fileSize isJsonlFile query
                  (App.searchEffect resultsDoc resultsQuery)) segs = Some b ->
        TreeNode.isSearchMatch b = false
        /\ forall st, TreeNode.autoExpandEffect b st = st)
  /\ (forall (doc : JsonValue) (items : list JsonValue) (fileSize : N)
        (isJsonlFile : bool) (query resultsQuery : string)
        (segs : list string) (b : TreeNode.Props),
        nodeAt (rootProps doc fileSize isJsonlFile query
                  (App.searchEffect (JArray items) resultsQuery)) segs
        = Some b ->
        TreeNode.isSearchMatch b = false
        /\ forall st, TreeNode.autoExpandEffect b st = st)
  /\ (let leftOver := App.searchEffect rootsDoc "1" in
      let b := rootProps (JArray [JNull]) 10 false "1" leftOver in
      App.searchEffect (JArray [JNull]) "1" = []
      /\ TreeNode.isSearchMatch b = true
      /\ TreeNode.autoExpandEffect b (TreeNode.mkState false 20)
         = TreeNode.mkState true 20).
Proof.
  assert (forall b, TreeNode.isSearchMatch b = false ->
                    forall st, TreeNode.autoExpandEffect b st = st) as Heffect.
  { intros b Hb st. unfold TreeNode.autoExpandEffect.
    now rewrite Hb, andb_false_r. }
  split; [|split; [|split]].
  - intros doc fileSize isJsonlFile query results segs b.
    apply search_match_result.
  - intros doc resultsDoc fileSize isJsonlFile query resultsQuery segs b
      Hnames Hnode.
    assert (TreeNode.isSearchMatch b = false) as Hb
      by (eapply no_search_match; eassumption).
    split; [exact Hb | now apply Heffect].
  - intros doc items fileSize isJsonlFile query resultsQuery segs b Hnode.
    assert (TreeNode.isSearchMatch b = false) as Hb.
    { eapply no_search_match; [apply array_children_names | exact Hnode]. }
    split; [exact Hb | now apply Heffect].
  - cbv zeta. repeat split; vm_compute; reflexivity.
Qed.

Lemma forced_expansion_needs_root_named_key_witness :
  exists b,
    nodeAt (rootProps (JArray [JNull; JBool true]) 29 true "c"
              (App.searchEffect nestedDoc "c"))
      ["[1]"] = Some b
    /\ App.searchEffect nestedDoc "c"
       = [App.keyResult ["a"; "b"; "c"] "c" (JNumber "1")]
    /\ TreeNode.isSearchMatch b = false
    /\ TreeNode.autoExpandEffect b (TreeNode.mkState false 20)
       = TreeNode.mkState false 20.
Proof.
  eexists. split; [vm_compute; reflexivity|]. split; [reflexivity|].
  destruct (proj1 (proj2 forced_expansion_needs_root_named_key)
              (JArray [JNull; JBool true]) nestedDoc 29%N true "c" "c" ["[1]"]
              _ ltac:(repeat constructor) eq_refl) as [Hmatch Heffect].
  split; [exact Hmatch | apply Heffect].
Defined.

(** ** The window over every sequence of events *)

Lemma sameNode_refl p : sameNode p p.
Proof. repeat split. Qed.

Lemma sameNode_trans p1 p2 p3 :
  sameNode p1 p2 -> sameNode p2 p3 -> sameNode p1 p3.
Proof.
  unfold sameNode. intros (?&?&?&?&?) (?&?&?&?&?).
  repeat split; congruence.
Qed.

Lemma windowInOrder_sameNode p p' st :
  sameNode p p' -> windowInOrder p st -> windowInOrder p' st.
Proof.
  intros (Hd & _ & Hl & Hf & _).
  unfold windowInOrder, TreeNode.initialState, TreeNode.isArray,
    TreeNode.dataLength.
  now rewrite Hd, Hf.
Qed.

Lemma windowInOrder_expansion p st b :
  windowInOrder p st ->
  windowInOrder p (TreeNode.mkState b (TreeNode.visibleCount st)).
Proof. exact (fun H => H). Qed.

Lemma windowInOrder_reset p st :
  windowInOrder p st -> windowInOrder p (TreeNode.resetVisibleEffect p st).
Proof.
  unfold windowInOrder, TreeNode.resetVisibleEffect.
  destruct (TreeNode.isLargeFile p && TreeNode.isArray p); [|auto].
  intros _. cbn [TreeNode.visibleCount]. lia.
Qed.

Lemma windowInOrder_afterExpansion p old new :
  windowInOrder p new -> windowInOrder p (TreeNode.afterExpansion p old new).
Proof.
  intros H. unfold TreeNode.afterExpansion.
  destruct (Bool.eqb _ _); [exact H | now apply windowInOrder_reset].
Qed.

Lemma fire_keeps_window p st ev p' st' :
  TreeNode.fire p st ev = Some (p', st') ->
  windowInOrder p st ->
  sameNode p p' /\ windowInOrder p' st'.
Proof.
  destruct ev as [| |q rs]; cbn [TreeNode.fire].
  - destruct (TreeNode.isPrimitive p); [discriminate|].
    intros [= <- <-] H. split; [apply sameNode_refl|].
    apply windowInOrder_afterExpansion.
    now apply (windowInOrder_expansion p st).
  - destruct (TreeNode.canLoadMore p st) eqn:Hc; [|discriminate].
    intros [= <- <-] H. split; [apply sameNode_refl|].
    apply canLoadMore_spec in Hc as (_ & Ha & Hl & Hlt).
    unfold windowInOrder in *. rewrite Hl, Ha in *. cbn [andb] in *.
    unfold TreeNode.loadMore. cbn [TreeNode.visibleCount]. lia.
  - intros [= <- <-] H.
    assert (sameNode p (TreeNode.withSearch p q rs)) as Hsame
      by (repeat split).
    split; [exact Hsame|].
    apply windowInOrder_afterExpansion.
    apply (windowInOrder_sameNode p _ _ Hsame).
    destruct (_ || _); [|exact H].
    unfold TreeNode.autoExpandEffect.
    destruct (_ && _); [|exact H].
    now apply (windowInOrder_expansion p st).
Qed.

Lemma mount_window p : windowInOrder p (TreeNode.mount p).
Proof.
  apply windowInOrder_reset. unfold TreeNode.autoExpandEffect.
  assert (windowInOrder p (TreeNode.initialState p)) as Hinit.
  { unfold windowInOrder, TreeNode.initialState.
    destruct (TreeNode.isLargeFile p && TreeNode.isArray p);
      cbn [TreeNode.visibleCount]; [lia | reflexivity]. }
  destruct (_ && _); [|exact Hinit].
  now apply (windowInOrder_expansion p (TreeNode.initialState p)).
Qed.

Lemma run_keeps_window evs : forall p st p' st',
  TreeNode.run p st evs = Some (p', st') ->
  windowInOrder p st ->
  sameNode p p' /\ windowInOrder p' st'.
Proof.
  induction evs as [|ev evs IH]; intros p st p' st'; cbn [TreeNode.run].
  - intros [= <- <-] H. split; [apply sameNode_refl | exact H].
  - destruct (TreeNode.fire p st ev) as [[p1 st1]|] eqn:Hfire; [|discriminate].
    intros Hrun H.
    destruct (fire_keeps_window _ _ _ _ _ Hfire H) as [Hs1 H1].
    destruct (IH _ _ _ _ Hrun H1) as [Hs2 H2].
    split; [now apply (sameNode_trans p p1 p') | exact H2].
Qed.

(** X4: whatever clicks, load-more clicks and renders with new search
    props a mounted node goes through, its data, name, level, large-file
    flag and path stay the same, and its window stays in order: the
    visible count of an array of a large file is at least 100 and at most
    the larger of 100 and the array length, and the count of any other
    node never changes (all the items of an array, 0 otherwise). *)
Theorem window_in_order_over_events :
  forall (evs : list TreeNode.Event) (p p' : TreeNode.Props)
    (st' : TreeNode.State),
    TreeNode.run p (TreeNode.mount p) evs = Some (p', st') ->
    sameNode p p'
    /\ windowInOrder p' st'
    /\ (TreeNode.isLargeFile p = false ->
        TreeNode.visibleCount st' = TreeNode.dataLength p
        /\ TreeNode.canLoadMore p' st' = false).
Proof.
  intros evs p p' st' Hrun.
  destruct (run_keeps_window evs _ _ _ _ Hrun (mount_window p))
    as [Hsame Hwin].
  split; [exact Hsame|]. split; [exact Hwin|].
  intros Hsmall. destruct Hsame as (Hd & _ & _ & Hf & _).
  unfold windowInOrder in Hwin. rewrite Hf, Hsmall in Hwin.
  cbn [andb] in Hwin. split.
  - rewrite Hwin. unfold TreeNode.initialState, TreeNode.isArray,
      TreeNode.dataLength.
    rewrite Hf, Hsmall, Hd. cbn [andb TreeNode.visibleCount].
    now destruct (TreeNode.data p).
  - unfold TreeNode.canLoadMore. rewrite Hf, Hsmall.
    now rewrite andb_false_r.
Qed.

Lemma window_in_order_over_events_witness :
  sameNode mediumArrayNode mediumArrayNode
  /\ windowInOrder mediumArrayNode (TreeNode.mkState true 100).
Proof.
  refine (let H := window_in_order_over_events
                     [TreeNode.LoadMoreClick; TreeNode.Click; TreeNode.Click]
                     mediumArrayNode mediumArrayNode
                     (TreeNode.mkState true 100) _ in
          conj (proj1 H) (proj1 (proj2 H))).
  vm_compute. reflexivity.
Defined.

(** X5: a click on a node that is not a primitive flips [isExpanded], and
    two clicks bring it back; on an array of a large file every click
    also sets the visible count back to 100, so collapsing and expanding
    such an array again loses the pages that were loaded.  A primitive
    takes no click. *)
Theorem click_flips_and_resets_window :
  forall (p : TreeNode.Props) (st : TreeNode.State),
    let page := if TreeNode.isLargeFile p && TreeNode.isArray p
                then 100 else TreeNode.visibleCount st in
    (TreeNode.isPrimitive p = false ->
     TreeNode.fire p st TreeNode.Click
     = Some (p, TreeNode.mkState (negb (TreeNode.isExpanded st)) page)
     /\ TreeNode.run p st [TreeNode.Click; TreeNode.Click]
        = Some (p, TreeNode.mkState (TreeNode.isExpanded st) page))
    /\ (TreeNode.isPrimitive p = true ->
        TreeNode.fire p st TreeNode.Click = None).
Proof.
  intros p st page. split.
  - intros Hprim.
    assert (forall s,
               TreeNode.fire p s TreeNode.Click
               = Some (p, TreeNode.mkState (negb (TreeNode.isExpanded s))
                            (if TreeNode.isLargeFile p && TreeNode.isArray p
                             then 100 else TreeNode.visibleCount s))) as Hclick.
    { intros s. cbn [TreeNode.fire]. rewrite Hprim.
      unfold TreeNode.afterExpansion, TreeNode.toggleExpanded,
        TreeNode.resetVisibleEffect.
      cbn [TreeNode.isExpanded TreeNode.visibleCount].
      destruct (TreeNode.isExpanded s); cbn [negb Bool.eqb];
        destruct (TreeNode.isLargeFile p && TreeNode.isArray p); reflexivity. }
    split; [apply Hclick|].
    cbn [TreeNode.run]. rewrite !Hclick.
    cbn [TreeNode.isExpanded TreeNode.visibleCount].
    rewrite negb_involutive. subst page.
    destruct (TreeNode.isLargeFile p && TreeNode.isArray p); reflexivity.
  - intros Hprim. cbn [TreeNode.fire]. now rewrite Hprim.
Qed.

Lemma click_flips_and_resets_window_witness :
  TreeNode.isPrimitive mediumArrayNode = false
  /\ TreeNode.run mediumArrayNode (TreeNode.mkState true 250)
       [TreeNode.Click; TreeNode.Click]
     = Some (mediumArrayNode, TreeNode.mkState true 100).
Proof.
  split; [reflexivity|].
  exact (proj2 (proj1 (click_flips_and_resets_window mediumArrayNode
                         (TreeNode.mkState true 250)) eq_refl)).
Defined.

(** ** The children that a node renders *)

Lemma combine_seq_firstn {A} (l : list A) : forall start m,
  combine (seq start (List.length (firstn m l))) (firstn m l)
  = firstn m (combine (seq start (List.length l)) l).
Proof.
  induction l as [|x l IH]; intros start [|m]; simpl; try reflexivity.
  now rewrite IH.
Qed.

Lemma children_length v :
  List.length (children v)
  = match v with
    | JArray items => List.length items
    | JObject entries => List.length entries
    | _ => 0
    end.
Proof.
  destruct v; try reflexivity.
  unfold children. apply forEach_push_length.
Qed.

(** X6: the children that a node renders are, in order and under the
    names that the search gives them, the first children of its value: all
    of them for an object or for an array of a file that is not large, the
    first [visibleCount] for an array of a large file; a collapsed node
    and a primitive render none. *)
Theorem rendered_children_are_a_prefix :
  forall (p : TreeNode.Props) (st : TreeNode.State),
    map (fun e => (TreeNode.entryName e, TreeNode.entryData e))
      (TreeNode.childEntries p st)
    = if negb (TreeNode.isExpanded st) || TreeNode.isPrimitive p then []
      else firstn (windowSize p st) (children (TreeNode.data p)).
Proof.
  intros p st. unfold TreeNode.childEntries, windowSize, TreeNode.childCount,
    TreeNode.isArray.
  destruct (negb (TreeNode.isExpanded st) || TreeNode.isPrimitive p) eqn:Hhide;
    [reflexivity|].
  destruct (TreeNode.data p) as [| | | |items|entries] eqn:Hdata;
    try (unfold TreeNode.isPrimitive, TreeNode.isObject, TreeNode.isArray in Hhide;
         rewrite Hdata in Hhide; cbn [negb andb] in Hhide;
         now rewrite orb_true_r in Hhide).
  - rewrite andb_true_r.
    assert (forall m,
               map (fun e => (TreeNode.entryName e, TreeNode.entryData e))
                 (JS.forEach
                    (fun item index acc =>
                       acc ++ [TreeNode.mkEntry (inl index) (indexName index) item])
                    (JS.slice 0 m items) [])
               = firstn m (children (JArray items))) as Hwindow.
    { intros m. unfold children, JS.forEach.
      rewrite !forEachFrom_push, slice_from_0. cbn [app].
      rewrite combine_seq_firstn, map_map, <- firstn_map. reflexivity. }
    destruct (TreeNode.isLargeFile p); apply Hwindow.
  - rewrite andb_false_r. cbn [children].
    rewrite firstn_all, map_map. rewrite <- (map_id entries) at 2.
    apply map_ext. now intros [k v].
Qed.

(** ** The node of a path *)

Lemma nodeAt_resolves segs : forall p q,
  nodeAt p segs = Some q ->
  resolves (TreeNode.data p) segs (TreeNode.data q).
Proof.
  induction segs as [|seg rest IH]; intros p q; simpl.
  - intros [= <-]. constructor.
  - destruct (find _ _) as [[n d]|] eqn:Hfind; [|discriminate].
    intros Hnode. pose proof (find_name_eq _ _ _ _ Hfind) as ->.
    apply find_some in Hfind as [Hin _].
    apply IH in Hnode. econstructor; [exact Hin | exact Hnode].
Qed.

(** X7: the node that the tree renders for the path [segs] below the root
    shows the value that [segs] resolves to in the document, at the level
    that is the length of [segs], under the path that is the name of the
    root followed by [segs], and with the large-file flag, the query and
    the search results of the root. *)
Theorem node_of_a_path :
  forall (doc : JsonValue) (fileSize : N) (isJsonlFile : bool)
    (query : string) (results : list App.SearchResult)
    (segs : list string) (b : TreeNode.Props),
    nodeAt (rootProps doc fileSize isJsonlFile query results) segs = Some b ->
    resolves doc segs (TreeNode.data b)
    /\ TreeNode.level b = List.length segs
    /\ TreeNode.currentPath b = rootName isJsonlFile :: segs
    /\ TreeNode.pathString b = JS.join "." (rootName isJsonlFile :: segs)
    /\ TreeNode.isLargeFile b = App.isLargeFile fileSize
    /\ TreeNode.searchQuery b = query
    /\ TreeNode.searchResults b = results.
Proof.
  intros doc fileSize isJsonlFile query results segs b Hnode.
  pose proof (nodeAt_resolves _ _ _ Hnode) as Hres.
  pose proof (nodeAt_level _ _ _ Hnode) as Hlevel.
  pose proof (nodeAt_currentPath _ _ _ Hnode) as Hpath.
  destruct (nodeAt_searchResults _ _ _ Hnode) as (Hrs & Hq & Hl).
  repeat split; try assumption.
  unfold TreeNode.pathString. now rewrite Hpath.
Qed.

Lemma node_of_a_path_witness :
  exists c,
    nodeAt (rootProps smallDoc 29 false "" []) ["a"; "c"] = Some c
    /\ TreeNode.level c = 2
    /\ TreeNode.pathString c = "root.a.c".
Proof.
  eexists. split; [reflexivity|].
  destruct (node_of_a_path smallDoc 29%N false "" [] ["a"; "c"] _ eq_refl)
    as (_ & Hlevel & _ & Hpath & _).
  split; [exact Hlevel | exact Hpath].
Defined.

(** ** Search results and highlighting *)

(** X8: every match that the search returns is highlighted by the node
    that shows it: a node whose query is the one searched for has
    [isValueMatch] when its data is the value of a value match, and
    [isKeyMatch] when its name is the key of a key match. *)
Theorem search_matches_are_highlighted :
  forall (doc : JsonValue) (query : string) (m : App.SearchResult)
    (p : TreeNode.Props),
    In m (App.searchInData doc query []) ->
    TreeNode.searchQuery p = query ->
    (App.type m = App.value_ ->
     TreeNode.data p = App.value m ->
     TreeNode.isValueMatch p = true)
    /\ (App.type m = App.key_ ->
        App.key m = Some (TreeNode.name p) ->
        TreeNode.isKeyMatch p = true).
Proof.
  intros doc query m p Hin Hquery.
  assert (JS.truthy query = true) as Htruthy.
  { destruct query; [|reflexivity]. destruct Hin. }
  apply searchInData_sound in Hin as [_ Hm].
  split; intros Htype Hshown; rewrite Htype in Hm.
  - destruct Hm as (_ & _ & Hprim & Hnull & Hinc).
    apply includes_spec in Hinc.
    unfold TreeNode.isValueMatch, TreeNode.isPrimitive, TreeNode.isObject,
      TreeNode.isArray.
    rewrite Hquery, Hshown, Htruthy, Hinc.
    now destruct (App.value m).
  - destruct Hm as (parent & entries & k & _ & Hkey & _ & _ & Hinc).
    apply includes_spec in Hinc.
    rewrite Hkey in Hshown. injection Hshown as ->.
    unfold TreeNode.isKeyMatch. now rewrite Hquery, Htruthy, Hinc.
Qed.

Lemma search_matches_are_highlighted_witness :
  TreeNode.isValueMatch
    (TreeNode.mkProps (JString "value42") "y" 1 false "42" [] ["root"])
  = true.
Proof.
  refine (proj1 (search_matches_are_highlighted answerDoc "42"
                   (App.valueResult ["y"] (JString "value42"))
                   (TreeNode.mkProps (JString "value42") "y" 1 false "42" []
                      ["root"]) _ eq_refl) eq_refl eq_refl).
  vm_compute. right. left. reflexivity.
Defined.

(** ** The query is matched without regard to case *)

Lemma isWhiteSpace_lowerChar c :
  JS.isWhiteSpace (JS.lowerChar c) = JS.isWhiteSpace c.
Proof.
  destruct c as [b0 b1 b2 b3 b4 b5 b6 b7].
  destruct b0, b1, b2, b3, b4, b5, b6, b7; reflexivity.
Qed.

Lemma lowerChar_idempotent c :
  JS.lowerChar (JS.lowerChar c) = JS.lowerChar c.
Proof.
  destruct c as [b0 b1 b2 b3 b4 b5 b6 b7].
  destruct b0, b1, b2, b3, b4, b5, b6, b7; reflexivity.
Qed.

Lemma whitespaceOnly_toLowerCase s :
  whitespaceOnly (JS.toLowerCase s) = whitespaceOnly s.
Proof.
  induction s as [|c s IH]; simpl; [reflexivity|].
  now rewrite isWhiteSpace_lowerChar, IH.
Qed.

Lemma toLowerCase_idempotent s :
  JS.toLowerCase (JS.toLowerCase s) = JS.toLowerCase s.
Proof.
  induction s as [|c s IH]; simpl; [reflexivity|].
  now rewrite lowerChar_idempotent, IH.
Qed.

(** X9: the search does not depend on the case of the letters of the
    query: two queries with the same lower-case form give the same
    results, so a query and its lower-case form do. *)
Theorem search_ignores_case_of_query :
  forall (doc : JsonValue) (query1 query2 : string) (path : list string),
    JS.toLowerCase query1 = JS.toLowerCase query2 ->
    App.searchInData doc query1 path = App.searchInData doc query2 path
    /\ App.searchInData doc (JS.toLowerCase query1) path
       = App.searchInData doc query1 path.
Proof.
  assert (forall doc q1 q2 path,
             JS.toLowerCase q1 = JS.toLowerCase q2 ->
             App.searchInData doc q1 path = App.searchInData doc q2 path)
    as Hsame.
  { intros doc q1 q2 path Hlower. unfold App.searchInData.
    rewrite !truthy_trim, Hlower.
    rewrite <- (whitespaceOnly_toLowerCase q1), Hlower,
      whitespaceOnly_toLowerCase.
    reflexivity. }
  intros doc query1 query2 path Hlower. split.
  - now apply Hsame.
  - apply Hsame. apply toLowerCase_idempotent.
Qed.

Lemma search_ignores_case_of_query_witness :
  App.searchInData answerDoc "VALUE" [] = App.searchInData answerDoc "value" [].
Proof.
  exact (proj1 (search_ignores_case_of_query answerDoc "VALUE" "value" []
                  eq_refl)).
Defined.

(** ** Lines of a JSONL file *)

Section JsonlMore.
Variable JSON_parse : string -> JsonValue + string.

Lemma parsed_and_failed lines :
  List.length (parsedValues JSON_parse lines) + failedCount JSON_parse lines
  = List.length lines.
Proof.
  unfold failedCount, lineParses.
  induction lines as [|line rest IH]; simpl; [reflexivity|].
  destruct (JSON_parse (JS.trim line)); simpl; lia.
Qed.

Lemma processJsonl_lines content content' :
  App.jsonlLines content' = App.jsonlLines content ->
  App.processJsonl JSON_parse content' = App.processJsonl JSON_parse content.
Proof. intros H. unfold App.processJsonl. now rewrite H. Qed.

End JsonlMore.

(** The account that [processJsonl] gives of the lines that [jsonlLines]
    finds in the text. *)
Lemma processJsonl_accounts :
  forall (JSON_parse : string -> JsonValue + string) (content : string),
    let lines := App.jsonlLines content in
    let loaded := App.processJsonl JSON_parse content in
    List.length (fst (App.parseLines JSON_parse lines))
    + List.length (snd (App.parseLines JSON_parse lines))
    = List.length lines
    /\ (App.error loaded = "" <->
        List.length (snd (App.parseLines JSON_parse lines)) = 0)
    /\ (App.jsonData loaded = JNull <->
        lines <> []
        /\ forallb (fun line => negb (lineParses JSON_parse line)) lines = true).
Proof.
  intros JSON_parse content lines loaded.
  subst loaded. unfold App.processJsonl. fold lines.
  rewrite parseLines_spec. cbv beta iota zeta. cbn [fst snd].
  rewrite !lineErrors_length.
  pose proof (parsed_and_failed JSON_parse lines) as Hsum.
  pose proof (parsedValues_nil_iff JSON_parse lines) as Hnil.
  split; [exact Hsum|].
  destruct (failedCount JSON_parse lines) as [|n] eqn:Hfailed.
  - cbn [Nat.ltb Nat.leb andb App.error App.jsonData].
    split; [tauto|]. split; [discriminate|].
    intros [Hlines Hall]. apply Hnil in Hall. rewrite Hall in Hsum.
    destruct lines; [contradiction | discriminate Hsum].
  - assert ((0 <? S n) = true) as -> by reflexivity. cbn [andb].
    destruct (parsedValues JSON_parse lines) as [|v vs] eqn:Hparsed.
    + cbn [List.length Nat.eqb App.error App.jsonData]. split.
      * split; [discriminate | discriminate].
      * split; [intros _|reflexivity]. split; [|now apply Hnil].
        intros Hlines. rewrite Hlines in Hsum. discriminate Hsum.
    + cbn [List.length Nat.eqb App.error App.jsonData]. split.
      * split; [discriminate | discriminate].
      * split; [discriminate|]. intros [_ Hall].
        apply Hnil in Hall. discriminate Hall.
Qed.

(** *** Line ends *)

Lemma splitLines_nonempty s : JS.splitLines s <> [].
Proof.
  destruct s as [|c s]; simpl; [discriminate|].
  destruct (Ascii.eqb c JS.LF); [discriminate|].
  destruct (JS.splitLines s); discriminate.
Qed.

Lemma splitLines_app_nl s :
  JS.splitLines (s ++ JS.nl) = JS.splitLines s ++ [""%string].
Proof.
  induction s as [|c s IH]; [reflexivity|].
  cbn [append JS.splitLines]. rewrite IH.
  destruct (Ascii.eqb c JS.LF); [reflexivity|].
  pose proof (splitLines_nonempty s) as Hne.
  destruct (JS.splitLines s); [contradiction | reflexivity].
Qed.

Lemma trimEnd_app_ws c s :
  JS.isWhiteSpace c = true ->
  JS.trimEnd (s ++ String c "") = JS.trimEnd s.
Proof.
  intros Hc. induction s as [|d s IH]; simpl.
  - now rewrite Hc.
  - now rewrite IH.
Qed.

Lemma trimStart_app_ws c s :
  JS.isWhiteSpace c = true ->
  JS.trimStart (s ++ String c "")
  = if whitespaceOnly s then ""%string
    else (JS.trimStart s ++ String c "")%string.
Proof.
  intros Hc. induction s as [|d s IH]; simpl.
  - now rewrite Hc.
  - destruct (JS.isWhiteSpace d); [exact IH | reflexivity].
Qed.

Lemma trim_sameLine l' l : sameLine l' l -> JS.trim l' = JS.trim l.
Proof.
  intros [-> | ->]; [reflexivity|].
  unfold JS.trim. rewrite trimStart_app_ws by reflexivity.
  destruct (whitespaceOnly l) eqn:Hws.
  - apply trim_empty_iff in Hws. unfold JS.trim in Hws. now rewrite Hws.
  - now apply trimEnd_app_ws.
Qed.

Lemma splitLines_toCRLF s :
  Forall2 sameLine (JS.splitLines (toCRLF s)) (JS.splitLines s).
Proof.
  assert (forall c l' l, sameLine l' l -> sameLine (String c l') (String c l))
    as Hcons.
  { intros c l' l [-> | ->]; [now left | now right]. }
  induction s as [|c s IH]; cbn [toCRLF JS.splitLines].
  - constructor; [now left | constructor].
  - destruct (Ascii.eqb c JS.LF) eqn:Hc.
    + cbn [JS.splitLines]. rewrite Ascii.eqb_refl.
      assert (Ascii.eqb CR JS.LF = false) as -> by reflexivity.
      constructor; [now right | exact IH].
    + cbn [JS.splitLines]. rewrite Hc.
      destruct IH as [|l' l ls' ls Hl Hls]; constructor; auto.
      now left.
Qed.

Lemma filter_sameLine lines' lines :
  Forall2 sameLine lines' lines ->
  Forall2 sameLine
    (filter (fun line => negb (String.eqb (JS.trim line) "")) lines')
    (filter (fun line => negb (String.eqb (JS.trim line) "")) lines).
Proof.
  induction 1 as [|l' l ls' ls Hl _ IH]; cbn [filter]; [constructor|].
  rewrite (trim_sameLine _ _ Hl).
  destruct (negb _); [now constructor | exact IH].
Qed.

Lemma parseLine_sameLine JSON_parse lines' lines :
  Forall2 sameLine lines' lines ->
  forall index acc,
    JS.forEachFrom (App.parseLine JSON_parse) lines' index acc
    = JS.forEachFrom (App.parseLine JSON_parse) lines index acc.
Proof.
  induction 1 as [|l' l ls' ls Hl _ IH]; intros index acc; [reflexivity|].
  cbn [JS.forEachFrom]. unfold App.parseLine at 2 4.
  rewrite (trim_sameLine _ _ Hl). apply IH.
Qed.

(** X11: the line ends of a JSONL file do not matter: a line feed at the
    end of the text adds no line, and a text with a carriage return before
    every line feed loads exactly as the text without them, records and
    error messages alike. *)
Theorem jsonl_line_ends_do_not_matter :
  forall (JSON_parse : string -> JsonValue + string) (content : string),
    App.processJsonl JSON_parse (content ++ JS.nl)
    = App.processJsonl JSON_parse content
    /\ App.processJsonl JSON_parse (toCRLF content)
       = App.processJsonl JSON_parse content.
Proof.
  intros JSON_parse content. split.
  - apply processJsonl_lines. unfold App.jsonlLines.
    rewrite splitLines_app_nl, filter_app. cbn [filter]. apply app_nil_r.
  - unfold App.processJsonl, App.parseLines, JS.forEach.
    rewrite (parseLine_sameLine JSON_parse _ _
               (filter_sameLine _ _ (splitLines_toCRLF content))).
    reflexivity.
Qed.

(** ** Highlighting a name *)

Lemma string_app_nil (s : string) : (s ++ "")%string = s.
Proof. induction s as [|c s IH]; simpl; [reflexivity | now rewrite IH]. Qed.

Lemma join_empty_cons (x : string) (xs : list string) :
  JS.join "" (x :: xs) = (x ++ JS.join "" xs)%string.
Proof.
  destruct xs as [|y ys]; simpl; [now rewrite string_app_nil | reflexivity].
Qed.

Lemma toLowerCase_app a b :
  JS.toLowerCase (a ++ b) = (JS.toLowerCase a ++ JS.toLowerCase b)%string.
Proof. induction a as [|c a IH]; simpl; [reflexivity | now rewrite IH]. Qed.

Lemma string_length_app (a b : string) :
  String.length (a ++ b) = String.length a + String.length b.
Proof. induction a as [|c a IH]; simpl; [reflexivity | now rewrite IH]. Qed.

Lemma toLowerCase_length s : String.length (JS.toLowerCase s) = String.length s.
Proof. induction s as [|c s IH]; simpl; [reflexivity | now rewrite IH]. Qed.

Lemma startsWith_same_length : forall (a b p : string),
  JS.startsWith (a ++ b) p = true ->
  String.length p = String.length a ->
  p = a.
Proof.
  unfold JS.startsWith.
  induction a as [|c a IH]; intros b p H Hlen.
  - now destruct p.
  - destruct p as [|d p]; [discriminate Hlen|].
    simpl in H, Hlen. destruct (ascii_dec d c) as [->|]; [|discriminate H].
    f_equal. apply (IH b); [exact H | lia].
Qed.

Lemma startsWith_length s p :
  JS.startsWith s p = true -> String.length p <= String.length s.
Proof.
  intros H. apply startsWith_spec in H as [after ->].
  rewrite string_length_app. lia.
Qed.

Lemma splitFrom_join lowerQuery text : forall piece inMatch,
  JS.join "" (splitFrom lowerQuery text piece inMatch)
  = (piece ++ text)%string.
Proof.
  induction text as [|c rest IH]; intros piece inMatch.
  - simpl. now rewrite string_app_nil.
  - assert (forall piece : string,
               (piece ++ String c rest)%string
               = ((piece ++ String c "") ++ rest)%string) as Hshift.
    { intros q. now rewrite string_app_assoc. }
    cbn [splitFrom]. destruct inMatch as [|[|k]].
    + destruct (JS.startsWith _ _).
      * rewrite join_empty_cons. f_equal.
        destruct (String.length lowerQuery) as [|[|k]];
          try (rewrite join_empty_cons, IH; reflexivity).
        now rewrite IH.
      * now rewrite IH, Hshift.
    + now rewrite join_empty_cons, IH, Hshift.
    + now rewrite IH, Hshift.
Qed.

Lemma splitFrom_capture lowerQuery text : forall piece k,
  JS.startsWith (JS.toLowerCase piece ++ JS.toLowerCase text) lowerQuery = true ->
  String.length piece + S k = String.length lowerQuery ->
  exists part,
    In part (splitFrom lowerQuery text piece (S k))
    /\ JS.toLowerCase part = lowerQuery.
Proof.
  induction text as [|c rest IH]; intros piece k Hstarts Hlen.
  - apply startsWith_length in Hstarts.
    rewrite string_length_app, toLowerCase_length in Hstarts.
    simpl in Hstarts. lia.
  - assert (JS.startsWith
              (JS.toLowerCase (piece ++ String c "") ++ JS.toLowerCase rest)
              lowerQuery = true) as Hstarts'.
    { rewrite toLowerCase_app, string_app_assoc. exact Hstarts. }
    cbn [splitFrom]. destruct k as [|k].
    + exists (piece ++ String c "")%string. split; [now left|].
      symmetry. apply (startsWith_same_length _ _ _ Hstarts').
      rewrite toLowerCase_length, string_length_app. simpl. lia.
    + apply IH; [exact Hstarts'|].
      rewrite string_length_app. simpl. lia.
Qed.

Lemma splitFrom_finds lowerQuery text : forall piece,
  lowerQuery <> ""%string ->
  JS.includes (JS.toLowerCase text) lowerQuery = true ->
  exists part,
    In part (splitFrom lowerQuery text piece 0)
    /\ JS.toLowerCase part = lowerQuery.
Proof.
  induction text as [|c rest IH]; intros piece Hne Hinc.
  - simpl in Hinc. rewrite orb_false_r in Hinc.
    destruct lowerQuery; [contradiction | discriminate Hinc].
  - cbn [splitFrom].
    destruct (JS.startsWith (JS.toLowerCase (String c rest)) lowerQuery)
      eqn:Hstarts.
    + destruct (String.length lowerQuery) as [|[|k]] eqn:Hlen.
      * destruct lowerQuery; [contradiction | discriminate Hlen].
      * exists (String c ""). split; [right; now left|].
        symmetry.
        apply (startsWith_same_length (JS.toLowerCase (String c ""))
                 (JS.toLowerCase rest) lowerQuery Hstarts).
        exact Hlen.
      * destruct (splitFrom_capture lowerQuery rest (String c "") k)
          as (part & Hin & Hpart).
        -- exact Hstarts.
        -- simpl. lia.
        -- exists part. split; [now right | exact Hpart].
    + cbn [JS.toLowerCase] in Hinc, Hstarts.
      rewrite includes_cons, Hstarts in Hinc. cbn [orb] in Hinc.
      apply (IH (piece ++ String c "")%string Hne Hinc).
Qed.

(** X12: highlighting never changes the text of a name: the parts that
    [highlightText] returns, joined, are the text; every part it marks is
    the query up to the case of letters; and, when the name and the query
    are made of ASCII characters, a name that is a key match ([isKeyMatch])
    gets at least one marked part. *)
Theorem highlightText_keeps_the_text :
  forall (p : TreeNode.Props) (text : string) (shouldHighlight : bool),
    JS.join "" (map snd (highlightText p text shouldHighlight)) = text
    /\ (forall part,
           In (true, part) (highlightText p text shouldHighlight) ->
           JS.toLowerCase part = JS.toLowerCase (TreeNode.searchQuery p))
    /\ (asciiOnly (TreeNode.name p) = true ->
        asciiOnly (TreeNode.searchQuery p) = true ->
        TreeNode.isKeyMatch p = true ->
        exists part,
          In (true, part)
            (highlightText p (TreeNode.name p) (TreeNode.isKeyMatch p))).
Proof.
  intros p text shouldHighlight. split; [|split].
  - unfold highlightText.
    destruct (negb shouldHighlight || _); [reflexivity|].
    cbv zeta. destruct (negb (JS.includes _ _)); [reflexivity|].
    rewrite map_map. cbn [snd]. rewrite map_id.
    unfold splitCaptured. apply splitFrom_join.
  - intros part. unfold highlightText.
    destruct (negb shouldHighlight || _);
      [intros [[=]|[]]|].
    cbv zeta. destruct (negb (JS.includes _ _));
      [intros [[=]|[]]|].
    intros Hin. apply in_map_iff in Hin as (x & [= Hflag <-] & _).
    now apply String.eqb_eq.
  - intros _ _ Hkey. rewrite Hkey. unfold highlightText.
    unfold TreeNode.isKeyMatch in Hkey.
    apply andb_true_iff in Hkey as [Htruthy Hinc].
    rewrite Htruthy, Hinc. cbn [negb orb]. cbv zeta.
    destruct (splitFrom_finds (JS.toLowerCase (TreeNode.searchQuery p))
                (TreeNode.name p) "") as (part & Hin & Hpart).
    + destruct (TreeNode.searchQuery p); discriminate.
    + exact Hinc.
    + exists part. apply in_map_iff. exists part. split; [|exact Hin].
      f_equal. now apply String.eqb_eq.
Qed.

Lemma highlightText_keeps_the_text_witness :
  asciiOnly "UserName" = true
  /\ asciiOnly "name" = true
  /\ exists part,
       In (true, part)
         (highlightText
            (TreeNode.mkProps JNull "UserName" 1 false "name" [] ["root"])
            "UserName" true).
Proof.
  split; [reflexivity|]. split; [reflexivity|].
  exact (proj2 (proj2 (highlightText_keeps_the_text
                         (TreeNode.mkProps JNull "UserName" 1 false "name" []
                            ["root"]) "UserName" true))
           eq_refl eq_refl eq_refl).
Defined.

(** ** The text of a value *)

Lemma replaceEscape_noBackslash x r s :
  noBackslash s = true -> replaceEscape x r s = s.
Proof.
  induction s as [|c s1 IH]; [reflexivity|].
  cbn [noBackslash]. intros H. apply andb_true_iff in H as [Hc Hs1].
  cbn [replaceEscape]. destruct s1 as [|d s2]; [reflexivity|].
  apply negb_true_iff in Hc. rewrite Hc. cbn [andb].
  now rewrite IH.
Qed.

Lemma replaceEscape_length x r : forall n s,
  String.length s <= n ->
  String.length (replaceEscape x r s) <= String.length s.
Proof.
  induction n as [|n IH]; intros s Hlen.
  - destruct s; [apply le_n | simpl in Hlen; lia].
  - destruct s as [|c [|d s2]]; [apply le_n | apply le_n |].
    simpl in Hlen. cbn [replaceEscape].
    destruct (Ascii.eqb c "\" && Ascii.eqb d x).
    + assert (String.length s2 <= n) as H2 by lia.
      apply IH in H2. simpl. lia.
    + assert (String.length (String d s2) <= n) as H1 by (simpl; lia).
      apply IH in H1. simpl in H1 |- *. lia.
Qed.

Lemma replaceEscape_shorter x r s :
  String.length (replaceEscape x r s) <= String.length s.
Proof. now apply (replaceEscape_length x r (String.length s)). Qed.

(** X13: a string without a backslash is shown as it is, between double
    quotes, and no string is shown longer than it is; every primitive has
    a text, and that of a number, a boolean or [null] is its string
    form. *)
Theorem renderValue_shows_plain_strings_verbatim :
  (forall s : string,
      noBackslash s = true ->
      renderValue (JString s) = Some (String quote (s ++ String quote ""))%string)
  /\ (forall s : string,
         String.length (processedValue s) <= String.length s)
  /\ (forall v : JsonValue,
         match v with
         | JString _ => renderValue v <> None
         | JArray _ | JObject _ => renderValue v = None
         | _ => renderValue v = Some (String_ v)
         end).
Proof.
  split; [|split].
  - intros s Hs. unfold renderValue, processedValue.
    rewrite (replaceEscape_noBackslash "n" _ s Hs).
    rewrite (replaceEscape_noBackslash "t" _ s Hs).
    rewrite (replaceEscape_noBackslash "r" _ s Hs).
    rewrite (replaceEscape_noBackslash quote _ s Hs).
    now rewrite (replaceEscape_noBackslash "\" _ s Hs).
  - intros s. unfold processedValue.
    repeat (etransitivity; [apply replaceEscape_shorter|]). apply le_n.
  - intros [|[]| | | |]; try reflexivity. discriminate.
Qed.

Lemma renderValue_shows_plain_strings_verbatim_witness :
  renderValue (JString "value42")
  = Some (String quote ("value42" ++ String quote ""))%string.
Proof.
  exact (proj1 renderValue_shows_plain_strings_verbatim "value42" eq_refl).
Defined.

(** ** The notice under the search box *)

Lemma searchEffect_searchInData doc query :
  App.searchEffect doc query = App.searchInData doc query [].
Proof.
  unfold App.searchEffect, App.searchInData.
  destruct (falsy doc), (JS.truthy (JS.trim query)); reflexivity.
Qed.

(** X14: the notice "(limited to first 1000)" is shown exactly when the
    tree is shown (a document is loaded and loading is over) and
    [searchResults] holds 1000 entries.  For the results that the search
    effect computed from a document and a query, those on show once the
    effect has run for them or earlier ones until then, that is exactly
    when that query is not blank, that document is not falsy and its
    traversal has at least 1000 matches: also when it has exactly 1000 and
    none was left out. *)
Theorem limited_notice_iff_thousand_matches :
  (forall (jsonData : JsonValue) (isLoading : bool)
      (searchResults : list App.SearchResult),
      limitedNotice jsonData isLoading searchResults = true
      <-> showsTree jsonData isLoading = true
          /\ List.length searchResults = 1000)
  /\ (forall (jsonData : JsonValue) (isLoading : bool)
        (resultsDoc : JsonValue) (resultsQuery : string),
        limitedNotice jsonData isLoading
          (App.searchEffect resultsDoc resultsQuery) = true
        <-> showsTree jsonData isLoading = true
            /\ whitespaceOnly resultsQuery = false
            /\ falsy resultsDoc = false
            /\ 1000 <= List.length
                         (allMatches (JS.toLowerCase resultsQuery)
                            resultsDoc [] 0))
  /\ (forall (doc : JsonValue) (query : string),
        limitedNotice doc false (App.searchEffect doc query) = true
        <-> whitespaceOnly query = false
            /\ falsy doc = false
            /\ 1000 <= List.length
                         (allMatches (JS.toLowerCase query) doc [] 0)).
Proof.
  assert (forall jsonData isLoading searchResults,
             limitedNotice jsonData isLoading searchResults = true
             <-> showsTree jsonData isLoading = true
                 /\ List.length searchResults = 1000) as Hstate.
  { intros jsonData isLoading searchResults.
    unfold limitedNotice, showsTree.
    rewrite !andb_true_iff, Nat.ltb_lt, Nat.eqb_eq.
    split.
    - intros [[[Hdoc Hload] _] Hlen]. now repeat split.
    - intros [[Hdoc Hload] Hlen]. repeat split; try assumption. lia. }
  assert (forall resultsDoc resultsQuery,
             List.length (App.searchEffect resultsDoc resultsQuery) = 1000
             <-> whitespaceOnly resultsQuery = false
                 /\ falsy resultsDoc = false
                 /\ 1000 <= List.length
                              (allMatches (JS.toLowerCase resultsQuery)
                                 resultsDoc [] 0)) as Hlength.
  { intros resultsDoc resultsQuery.
    rewrite searchEffect_searchInData, searchInData_allMatches.
    destruct (whitespaceOnly resultsQuery); cbn [orb].
    - split; [discriminate | intros [[=] _]].
    - destruct (falsy resultsDoc).
      + split; [discriminate | intros (_ & [=] & _)].
      + rewrite length_firstn. split.
        * intros H. repeat split. lia.
        * intros (_ & _ & H). lia. }
  split; [exact Hstate|]. split.
  - intros jsonData isLoading resultsDoc resultsQuery.
    rewrite Hstate, Hlength. reflexivity.
  - intros doc query. rewrite Hstate, Hlength.
    unfold showsTree. split.
    + intros [_ H]. exact H.
    + intros (Hq & Hdoc & H). rewrite Hdoc. now repeat split.
Qed.

(** ** What the first render mounts *)

Lemma flat_map_map {A B C} (f : B -> list C) (g : A -> B) (l : list A) :
  flat_map f (map g l) = flat_map (fun x => f (g x)) l.
Proof. induction l as [|x l IH]; simpl; [reflexivity | now rewrite IH]. Qed.

Lemma nodesBelow_flat_map {A} (nodesOf : A -> nat -> list TreeNode.Props)
    (limit : nat) (l : list A) :
  forall index,
    nodesBelow nodesOf limit l index
    = flat_map (fun ix => nodesOf (snd ix) (fst ix))
        (combine (seq index (List.length (firstn (limit - index) l)))
           (firstn (limit - index) l)).
Proof.
  induction l as [|x l IH]; intros index.
  - now rewrite firstn_nil.
  - cbn [nodesBelow]. destruct (index <? limit) eqn:Hlt.
    + apply Nat.ltb_lt in Hlt.
      replace (limit - index) with (S (limit - S index)) by lia.
      rewrite firstn_cons. cbn [List.length seq combine flat_map fst snd].
      now rewrite IH.
    + apply Nat.ltb_ge in Hlt.
      replace (limit - index) with 0 by lia. reflexivity.
Qed.

Lemma mountedNodes_unfold data name level isLargeFile q rs path :
  mountedNodes data name level isLargeFile q rs path
  = let p := TreeNode.mkProps data name level isLargeFile q rs path in
    let st := TreeNode.mount p in
    p ::
    if TreeNode.isExpanded st then
      match data with
      | JArray items =>
          nodesBelow
            (fun item index =>
               mountedNodes item (indexName index) (level + 1) isLargeFile
                 q rs (TreeNode.currentPath p))
            (if isLargeFile then TreeNode.visibleCount st
             else List.length items)
            items 0
      | JObject entries =>
          flat_map
            (fun entry =>
               mountedNodes (snd entry) (fst entry) (level + 1) isLargeFile
                 q rs (TreeNode.currentPath p))
            entries
      | _ => []
      end
    else [].
Proof. destruct data; reflexivity. Qed.

Lemma mountedBelow_children p :
  mountedBelow p
  = p :: flat_map mountedBelow
           (TreeNode.renderedChildren p (TreeNode.mount p)).
Proof.
  destruct p as [data name level large q rs path].
  unfold mountedBelow. cbn [TreeNode.data TreeNode.name TreeNode.level
    TreeNode.isLargeFile TreeNode.searchQuery TreeNode.searchResults
    TreeNode.path].
  rewrite mountedNodes_unfold. cbv zeta. f_equal.
  set (p := TreeNode.mkProps data name level large q rs path).
  unfold TreeNode.renderedChildren, TreeNode.childEntries.
  destruct (TreeNode.isExpanded (TreeNode.mount p)); cbn [negb orb];
    [|reflexivity].
  destruct data as [| | | |items|entries]; try reflexivity.
  - cbn [TreeNode.isPrimitive TreeNode.isObject TreeNode.isArray
         TreeNode.data p negb andb TreeNode.isLargeFile].
    unfold JS.forEach. rewrite forEachFrom_push, slice_from_0. cbn [app].
    rewrite nodesBelow_flat_map, Nat.sub_0_r, map_map, flat_map_map.
    reflexivity.
  - cbn [TreeNode.isPrimitive TreeNode.isObject TreeNode.isArray
         TreeNode.data p negb andb].
    rewrite map_map, flat_map_map. apply flat_map_ext. now intros [k v].
Qed.

Lemma mount_without_query p :
  TreeNode.searchQuery p = ""%string ->
  TreeNode.isExpanded (TreeNode.mount p) = TreeNode.shouldAutoExpand p
  /\ TreeNode.visibleCount (TreeNode.mount p)
     = TreeNode.visibleCount (TreeNode.initialState p).
Proof.
  intros Hq. unfold TreeNode.mount, TreeNode.autoExpandEffect,
    TreeNode.resetVisibleEffect, TreeNode.initialState.
  rewrite Hq. cbn [JS.truthy andb].
  destruct (TreeNode.isLargeFile p && TreeNode.isArray p); now split.
Qed.

Lemma Forall_nodesBelow {A} (P : TreeNode.Props -> Prop)
    (nodesOf : A -> nat -> list TreeNode.Props) limit (l : list A) :
  Forall (fun x => forall index, Forall P (nodesOf x index)) l ->
  forall index, Forall P (nodesBelow nodesOf limit l index).
Proof.
  induction 1 as [|x l Hx _ IH]; intros index; cbn [nodesBelow];
    [constructor|].
  destruct (index <? limit); [|constructor].
  apply Forall_app. split; [apply Hx | apply IH].
Qed.

Lemma nodesBelow_singletons {A}
    (nodesOf : A -> nat -> list TreeNode.Props) limit (l : list A) :
  (forall x index, List.length (nodesOf x index) = 1) ->
  forall index,
    List.length (nodesBelow nodesOf limit l index)
    = Nat.min (limit - index) (List.length l).
Proof.
  intros Hone. induction l as [|x l IH]; intros index; cbn [nodesBelow].
  - simpl. lia.
  - destruct (index <? limit) eqn:Hlt.
    + apply Nat.ltb_lt in Hlt.
      rewrite length_app, Hone, IH. cbn [List.length]. lia.
    + apply Nat.ltb_ge in Hlt. simpl. lia.
Qed.

Lemma mountedNodes_levels (bound : nat) (isLargeFile : bool) rs :
  bound = (if isLargeFile then 1 else 2) ->
  forall data name level path,
    Forall (fun n => TreeNode.level n <= Nat.max level bound)
      (mountedNodes data name level isLargeFile "" rs path).
Proof.
  intros Hbound.
  induction data as [|b|repr|s|items IH|entries IH]
    using JsonValue_induction;
    intros name level path; rewrite mountedNodes_unfold; cbv zeta;
    (constructor; [cbn [TreeNode.level]; lia|]);
    match goal with
    | |- context [TreeNode.mount ?p] =>
        destruct (mount_without_query p eq_refl) as [-> _]
    end;
    unfold TreeNode.shouldAutoExpand; cbn [TreeNode.isLargeFile TreeNode.level];
    try (destruct (if isLargeFile then level <? 1 else level <? 2);
         constructor).
  - destruct (if isLargeFile then level <? 1 else level <? 2) eqn:Hexp;
      [|constructor].
    assert (level + 1 <= bound) as Hlevel.
    { subst bound. destruct isLargeFile; apply Nat.ltb_lt in Hexp; lia. }
    apply Forall_nodesBelow.
    eapply Forall_impl; [|exact IH]. intros item Hitem index.
    eapply Forall_impl; [|apply Hitem]. intros n Hn. cbv beta in Hn. lia.
  - destruct (if isLargeFile then level <? 1 else level <? 2) eqn:Hexp;
      [|constructor].
    assert (level + 1 <= bound) as Hlevel.
    { subst bound. destruct isLargeFile; apply Nat.ltb_lt in Hexp; lia. }
    apply Forall_flat_map. eapply Forall_impl; [|exact IH].
    intros [k v] Hentry. cbn [fst snd] in *.
    eapply Forall_impl; [|apply Hentry]. intros n Hn. cbv beta in Hn. lia.
Qed.

Lemma mountedNodes_collapsed data name level rs path :
  1 <= level ->
  mountedNodes data name level true "" rs path
  = [TreeNode.mkProps data name level true "" rs path].
Proof.
  intros Hlevel. rewrite mountedNodes_unfold. cbv zeta.
  match goal with
  | |- context [TreeNode.mount ?p] =>
      destruct (mount_without_query p eq_refl) as [-> _]
  end.
  unfold TreeNode.shouldAutoExpand. cbn [TreeNode.isLargeFile TreeNode.level].
  assert ((level <? 1) = false) as -> by (apply Nat.ltb_ge; lia).
  reflexivity.
Qed.

Lemma flat_map_singletons {A B} (f : A -> list B) (l : list A) :
  (forall x, List.length (f x) = 1) ->
  List.length (flat_map f l) = List.length l.
Proof.
  intros Hone. induction l as [|x l IH]; simpl; [reflexivity|].
  now rewrite length_app, Hone, IH.
Qed.

(** X15: the nodes mounted with a node are the node itself and those
    mounted with the children it renders.  With no search query, loading
    a document mounts nodes down to level 2 only, and down to level 1 in a
    large file; in a large file that is the root and, for an array, its
    first 100 items at most, for an object, its entries. *)
Theorem first_render_is_shallow :
  (forall p : TreeNode.Props,
      mountedBelow p
      = p :: flat_map mountedBelow
               (TreeNode.renderedChildren p (TreeNode.mount p)))
  /\ forall (doc : JsonValue) (fileSize : N) (isJsonlFile : bool)
       (results : list App.SearchResult),
       let root := rootProps doc fileSize isJsonlFile "" results in
       Forall (fun n => TreeNode.level n
                        <= if App.isLargeFile fileSize then 1 else 2)
         (mountedBelow root)
       /\ (App.isLargeFile fileSize = true ->
           List.length (mountedBelow root)
           = 1 + match doc with
                 | JArray items => Nat.min 100 (List.length items)
                 | JObject entries => List.length entries
                 | _ => 0
                 end).
Proof.
  split; [exact mountedBelow_children|].
  intros doc fileSize isJsonlFile results root. split.
  - pose proof (mountedNodes_levels _ (App.isLargeFile fileSize) results
                  eq_refl doc (rootName isJsonlFile) 0 []) as H.
    exact H.
  - intros Hlarge. subst root. unfold mountedBelow, rootProps.
    cbn [TreeNode.data TreeNode.name TreeNode.level TreeNode.isLargeFile
         TreeNode.searchQuery TreeNode.searchResults TreeNode.path].
    rewrite Hlarge, mountedNodes_unfold. cbv zeta.
    match goal with
    | |- context [TreeNode.mount ?p] =>
        destruct (mount_without_query p eq_refl) as [-> ->]
    end.
    unfold TreeNode.shouldAutoExpand.
    cbn [TreeNode.isLargeFile TreeNode.level Nat.ltb Nat.leb
         List.length Nat.add]. f_equal.
    destruct doc as [| | | |items|entries]; try reflexivity.
    + cbn [TreeNode.initialState TreeNode.visibleCount
           TreeNode.isArray TreeNode.isLargeFile TreeNode.data andb].
      rewrite nodesBelow_singletons; [now rewrite Nat.sub_0_r|].
      intros item index. rewrite mountedNodes_collapsed; [reflexivity | lia].
    + apply flat_map_singletons.
      intros [k v]. rewrite mountedNodes_collapsed; [reflexivity | lia].
Qed.

Lemma first_render_is_shallow_witness :
  App.isLargeFile 6000000 = true
  /\ List.length (mountedBelow mediumArrayNode) = 1 + Nat.min 100 250.
Proof.
  split; [reflexivity|].
  exact (proj2 (proj2 first_render_is_shallow (JArray (repeat JNull 250))
                  6000000%N false [])
           eq_refl).
Defined.

(** ** What is shown after a file is read *)

(** X16: once a file is read, a JSONL file never leaves the screen on
    "No JSON/JSONL file loaded": it shows its records or an error.  A JSON
    file that fails to parse shows the error and no tree.  A JSON file
    that parses to a falsy value ([null], [false], [0] or the empty
    string) is loaded without an error, and yet the screen shows no tree
    and says that no file is loaded. *)
Theorem falsy_document_shows_no_file :
  forall (JSON_parse : string -> JsonValue + string)
    (fileName content : string),
    let loaded := App.processFile JSON_parse fileName content in
    let isJsonl := JS.endsWith (JS.toLowerCase fileName) ".jsonl" in
    (isJsonl = true ->
     showsNoFile (App.jsonData loaded) (App.error loaded) false = false
     /\ (showsTree (App.jsonData loaded) false = true
         \/ showsError (App.error loaded) = true))
    /\ (isJsonl = false ->
        forall message,
          JSON_parse content = inr message ->
          showsError (App.error loaded) = true
          /\ showsTree (App.jsonData loaded) false = false)
    /\ (isJsonl = false ->
        forall v,
          JSON_parse content = inl v ->
          App.jsonData loaded = v
          /\ App.error loaded = ""%string
          /\ showsTree v false = negb (falsy v)
          /\ showsNoFile v "" false = falsy v).
Proof.
  intros JSON_parse fileName content loaded isJsonl.
  subst loaded isJsonl. unfold App.processFile.
  destruct (JS.endsWith (JS.toLowerCase fileName) ".jsonl").
  - split; [intros _ | split; discriminate].
    unfold App.processJsonl.
    destruct (App.parseLines JSON_parse (App.jsonlLines content))
      as [parsedLines errors].
    cbv zeta.
    destruct ((0 <? List.length errors) && (List.length parsedLines =? 0))
      eqn:Hnone.
    + cbn [App.jsonData App.error]. split; [reflexivity | now right].
    + destruct (0 <? List.length errors);
        cbn [App.jsonData App.error]; split; try reflexivity; now left.
  - split; [discriminate|]. split; intros _.
    + intros message ->. cbn [App.jsonData App.error]. now split.
    + intros v ->. cbn [App.jsonData App.error].
      unfold showsTree, showsNoFile. cbn [JS.truthy negb].
      now rewrite !andb_true_r.
Qed.

Lemma falsy_document_shows_no_file_witness :
  App.jsonData (App.processFile literalParse "zero.json" "false") = JBool false
  /\ App.error (App.processFile literalParse "zero.json" "false") = ""%string
  /\ showsTree (JBool false) false = negb (falsy (JBool false))
  /\ showsNoFile (JBool false) "" false = falsy (JBool false).
Proof.
  exact (proj2 (proj2 (falsy_document_shows_no_file literalParse "zero.json"
                         "false")) eq_refl (JBool false) eq_refl).
Defined.

(** ** A JSONL text and its lines *)

Lemma splitLines_line p :
  noLF p = true -> JS.splitLines p = [p].
Proof.
  induction p as [|c p IH]; [reflexivity|].
  cbn [noLF JS.splitLines]. intros H. apply andb_true_iff in H as [Hc Hp].
  apply negb_true_iff in Hc. rewrite Hc, (IH Hp). reflexivity.
Qed.

Lemma splitLines_line_then p rest :
  noLF p = true ->
  JS.splitLines (p ++ JS.nl ++ rest) = p :: JS.splitLines rest.
Proof.
  induction p as [|c p IH].
  - intros _. cbn [append JS.nl JS.splitLines].
    now rewrite Ascii.eqb_refl.
  - cbn [noLF append JS.splitLines]. intros H.
    apply andb_true_iff in H as [Hc Hp].
    apply negb_true_iff in Hc. rewrite Hc, (IH Hp). reflexivity.
Qed.

(** Splitting the lines joined by line feeds gives the lines back. *)
Lemma splitLines_join allLines :
  allLines <> [] ->
  Forall (fun line => noLF line = true) allLines ->
  JS.splitLines (JS.join JS.nl allLines) = allLines.
Proof.
  induction allLines as [|p rest IH]; [contradiction|].
  intros _ Hall. inversion Hall as [|? ? Hp Hrest]; subst.
  destruct rest as [|q rest].
  - now apply splitLines_line.
  - change (JS.join JS.nl (p :: q :: rest))
      with (p ++ JS.nl ++ JS.join JS.nl (q :: rest))%string.
    rewrite (splitLines_line_then _ _ Hp), IH; [reflexivity | discriminate |].
    exact Hrest.
Qed.


Lemma jsonlLines_nonBlank content :
  App.jsonlLines content = nonBlank (JS.splitLines content).
Proof.
  unfold App.jsonlLines, nonBlank. apply filter_ext. intros line.
  f_equal. destruct (whitespaceOnly line) eqn:Hws.
  - apply trim_empty_iff in Hws. now rewrite Hws.
  - destruct (JS.trim line) eqn:Htrim; [|reflexivity].
    apply trim_empty_iff in Htrim. congruence.
Qed.

Lemma jsonlLines_join allLines :
  allLines <> [] ->
  Forall (fun line => noLF line = true) allLines ->
  App.jsonlLines (JS.join JS.nl allLines) = nonBlank allLines.
Proof.
  intros Hne Hall. now rewrite jsonlLines_nonBlank, splitLines_join.
Qed.

Lemma processFile_jsonl JSON_parse fileName content :
  JS.endsWith (JS.toLowerCase fileName) ".jsonl" = true ->
  App.processFile JSON_parse fileName content
  = App.processJsonl JSON_parse content.
Proof. intros H. unfold App.processFile. now rewrite H. Qed.




(** X10: loading a JSONL file accounts for every line of the text that is
    not blank: for a text made of the lines [allLines], of ASCII
    characters, the records that [processFile] parses and the error
    messages it collects add up to the number of lines that are not blank;
    the records loaded are the values of the lines that parse, in order;
    the error text is empty exactly when none of the lines fails, and
    nothing is loaded exactly when there is a line that is not blank and
    none parses. *)
Theorem jsonl_accounts_for_every_line :
  forall (JSON_parse : string -> JsonValue + string)
    (fileName : string) (allLines : list string),
    JS.endsWith (JS.toLowerCase fileName) ".jsonl" = true ->
    allLines <> [] ->
    Forall (fun line => noLF line = true) allLines ->
    Forall (fun line => asciiOnly line = true) allLines ->
    let content := JS.join JS.nl allLines in
    let lines := nonBlank allLines in
    let loaded := App.processFile JSON_parse fileName content in
    List.length (fst (App.parseLines JSON_parse (App.jsonlLines content)))
    + List.length (snd (App.parseLines JSON_parse (App.jsonlLines content)))
    = List.length lines
    /\ (forall records,
           App.jsonData loaded = JArray records ->
           records = parsedValues JSON_parse lines
           /\ List.length records + failedCount JSON_parse lines
              = List.length lines)
    /\ (App.error loaded = ""%string <-> failedCount JSON_parse lines = 0)
    /\ (App.jsonData loaded = JNull <->
        lines <> []
        /\ forallb (fun line => negb (lineParses JSON_parse line)) lines
           = true).
Proof.
  intros JSON_parse fileName allLines Hname Hne Hall _ content lines loaded.
  assert (App.jsonlLines content = lines) as Hlines
    by now apply jsonlLines_join.
  subst loaded. rewrite (processFile_jsonl _ _ _ Hname).
  pose proof (processJsonl_accounts JSON_parse content) as Hacc.
  cbv zeta in Hacc. rewrite Hlines in Hacc.
  destruct Hacc as (Hsum & Herr & Hnull).
  rewrite Hlines. split; [exact Hsum|].
  rewrite parseLines_spec in Herr. cbn [snd] in Herr.
  rewrite lineErrors_length in Herr.
  split; [|split; [exact Herr | exact Hnull]].
  intros records Hrecords.
  pose proof (parsed_and_failed JSON_parse lines) as Hpf.
  assert (records = parsedValues JSON_parse lines) as ->; [|now split].
  revert Hrecords. unfold App.processJsonl. rewrite Hlines, parseLines_spec.
  cbv beta iota zeta.
  destruct (_ && _); [discriminate|].
  destruct (0 <? _); cbn [App.jsonData]; now intros [= <-].
Qed.

Lemma jsonl_accounts_for_every_line_witness :
  List.length
    (fst (App.parseLines literalParse
            (App.jsonlLines
               (JS.join JS.nl ["true"; ""; "{oops"; "null"; "  "]%string))))
  + List.length
      (snd (App.parseLines literalParse
              (App.jsonlLines
                 (JS.join JS.nl ["true"; ""; "{oops"; "null"; "  "]%string))))
  = List.length (nonBlank ["true"; ""; "{oops"; "null"; "  "]%string).
Proof.
  refine (proj1 (jsonl_accounts_for_every_line literalParse "Records.JSONL"
                   ["true"; ""; "{oops"; "null"; "  "]%string eq_refl _ _ _)).
  - discriminate.
  - repeat constructor.
  - repeat constructor.
Defined.
